(** * The frida loader (src/lib/loader/loader.c): handshake and agent bootstrap

    A shallow embedding of the loader and the properties of its framed
    I/O, of its value codec, of the handshake run at load time and of the
    agent bootstrap thread.

    The C code talks to the kernel (socket, connect, send, recv, close),
    to the allocator (malloc, free, asprintf), to the thread library and
    to the dynamic linker.  Each of these is modelled by a function on an
    explicit [world]: the heap, the byte stream of the control channel
    with the kernel's coming answers, [errno], and the trace of the
    externally visible calls made so far. *)

From Stdlib Require Import ZArith NArith Lia List.
From Stdlib Require Import Strings.Byte Strings.String Numbers.DecimalString.
From stdpp Require Import base option list gmap.

Local Open Scope Z_scope.
Local Open Scope nat_scope.

(** ** Bytes, memory cells and pointers *)

(** [uint8_t x = n]: the conversion of a [size_t] to eight bits. *)
Definition u8 (n : nat) : byte :=
  match Byte.of_nat (n mod 256) with
  | Some b => b
  | None => x00
  end.

(** A byte of memory: [None] is a byte that was never written
    (indeterminate in C). *)
Abbreviation cell := (option byte).

Definition cell_byte (c : cell) : byte :=
  match c with
  | Some b => b
  | None => x00
  end.

Inductive ptr :=
| NULL
| Ptr (a : nat).

Definition is_null (p : ptr) : bool :=
  match p with
  | NULL => true
  | Ptr _ => false
  end.

(** [memcpy (bytes + offset, data, length data)]: what a receive does to
    the caller's buffer. *)
Definition write (bytes : list cell) (offset : nat) (data : list byte) : list cell :=
  firstn offset bytes ++ map Some data ++ skipn (offset + length data) bytes.

(** [strlen v], on the bytes in memory from [v] on. *)
Fixpoint strlen (v : list byte) : nat :=
  match v with
  | [] => 0
  | b :: v' => if Byte.eqb b x00 then 0 else S (strlen v')
  end.

(** The bytes of an initialised C string in a block, terminator included:
    the cells up to the first one never written. *)
Fixpoint defined_prefix (blk : list cell) : list byte :=
  match blk with
  | Some b :: blk' => b :: defined_prefix blk'
  | _ => []
  end.

(** ** The world *)

Inductive errno :=
| ENONE
| EINTR
| EAGAIN
| EPIPE
| ECONNRESET.

Definition errno_eqb (a b : errno) : bool :=
  match a, b with
  | ENONE, ENONE | EINTR, EINTR | EAGAIN, EAGAIN
  | EPIPE, EPIPE | ECONNRESET, ECONNRESET => true
  | _, _ => false
  end.

(** What the peer and the kernel do at the next [recv]: deliver a
    fragment (never empty), or fail with an error number.  A script that
    has run out is a peer that has closed the connection. *)
Inductive rx_event :=
| RxData (b : byte) (bs : list byte)
| RxFail (e : errno).

(** What the kernel does at the next [send]: take at most [k] bytes, or
    fail with an error number.  When the script has run out the kernel
    takes whatever it is given. *)
Inductive tx_event :=
| TxAccept (k : nat)
| TxFail (e : errno).

(** The calls that are visible outside the loader. *)
Inductive event :=
| EvLog (msg : string)
| EvSocket (fd : Z)
| EvConnect (fd : Z) (sun_path : list byte) (result : Z)
| EvThreadCreate (arg : ptr) (result : Z)
| EvThreadDetach (created : bool)
| EvClose (fd : Z)
| EvDlopen (path : list byte) (handle : ptr)
| EvDlsym (handle : ptr) (symbol : string) (addr : ptr)
| EvAgentMain (data_string : ptr) (mapped_range : ptr) (parent_thread_id : Z)
| EvDlclose (handle : ptr)
| EvAbort.

Record world := World {
  w_heap : gmap nat (list cell);   (* the live blocks of the heap *)
  w_rx : list rx_event;            (* the coming answers to recv *)
  w_tx : list tx_event;            (* the coming answers to send *)
  w_wire : list byte;              (* the bytes sent so far *)
  w_errno : errno;
  w_trace : list event;            (* oldest call first *)
}.

Definition set_heap (h : gmap nat (list cell)) (w : world) : world :=
  World h (w_rx w) (w_tx w) (w_wire w) (w_errno w) (w_trace w).
Definition set_rx (rx : list rx_event) (w : world) : world :=
  World (w_heap w) rx (w_tx w) (w_wire w) (w_errno w) (w_trace w).
Definition set_tx (tx : list tx_event) (w : world) : world :=
  World (w_heap w) (w_rx w) tx (w_wire w) (w_errno w) (w_trace w).
Definition set_wire (bs : list byte) (w : world) : world :=
  World (w_heap w) (w_rx w) (w_tx w) bs (w_errno w) (w_trace w).
Definition set_errno (e : errno) (w : world) : world :=
  World (w_heap w) (w_rx w) (w_tx w) (w_wire w) e (w_trace w).
Definition emit (ev : event) (w : world) : world :=
  World (w_heap w) (w_rx w) (w_tx w) (w_wire w) (w_errno w) (w_trace w ++ [ev]).

(** What the loader's surroundings answer, fixed for one run. *)
Record env := Env {
  frida_data_dir : list byte;      (* the patched directory, without its NUL *)
  getpid : Z;
  socket_result : Z;               (* a descriptor, or -1 *)
  connect_result : Z;              (* 0, or -1 *)
  pthread_create_result : Z;       (* 0, or an error number *)
  dlopen_result : ptr;             (* the module handle, or NULL *)
  dlsym_result : ptr;              (* the address of the symbol, or NULL *)
}.

(** ** A state monad over the world *)

Definition M (A : Type) : Type := world -> A * world.

#[export] Instance M_ret : MRet M := fun A (a : A) (w : world) => (a, w).
#[export] Instance M_bind : MBind M :=
  fun A B (f : A -> M B) (m : M A) (w : world) => let (a, w') := m w in f a w'.

Definition modify (f : world -> world) : M unit := fun w => (tt, f w).

(** ** The allocator

    The file is compiled for Darwin only ([HAVE_IOS]), whose [malloc]
    answers a request for zero bytes with a block of its own; running out
    of memory is left out. *)

Definition alloc (blk : list cell) : M ptr := fun w =>
  let a := fresh (dom (w_heap w)) in
  (Ptr a, set_heap (<[a := blk]> (w_heap w)) w).

Definition malloc (size : nat) : M ptr := alloc (repeat None size).

Definition free (p : ptr) : M unit :=
  match p with
  | NULL => mret tt
  | Ptr a => modify (fun w => set_heap (delete a (w_heap w)) w)
  end.

Definition load (p : ptr) (w : world) : list cell :=
  match p with
  | NULL => []
  | Ptr a => default [] (w_heap w !! a)
  end.

Definition store (p : ptr) (blk : list cell) : M unit :=
  match p with
  | NULL => mret tt
  | Ptr a => modify (fun w => set_heap (<[a := blk]> (w_heap w)) w)
  end.

(** [asprintf (&p, ...)] with the rendered text [text]. *)
Definition asprintf (text : list byte) : M ptr := alloc (map Some (text ++ [x00])).

(** ** Framed I/O *)

(** [send (s, bytes + offset, len, 0)]. *)
Definition send (bytes : list byte) (offset len : nat) : M Z := fun w =>
  match w_tx w with
  | TxFail e :: tx => (-1, set_errno e (set_tx tx w))%Z
  | TxAccept k :: tx =>
      let n := Nat.min k len in
      (Z.of_nat n, set_wire (w_wire w ++ firstn n (skipn offset bytes)) (set_tx tx w))
  | [] => (Z.of_nat len, set_wire (w_wire w ++ firstn len (skipn offset bytes)) w)
  end.

(** [recv (s, bytes + offset, len, 0)]: the result and the buffer after
    the call. *)
Definition recv (bytes : list cell) (offset len : nat) : M (Z * list cell) := fun w =>
  match w_rx w with
  | RxFail e :: rx => ((-1, bytes), set_errno e (set_rx rx w))%Z
  | RxData b bs :: rx =>
      let data := firstn len (b :: bs) in
      let rx' := match skipn len (b :: bs) with
                 | [] => rx
                 | b' :: bs' => RxData b' bs' :: rx
                 end in
      ((Z.of_nat (length data), write bytes offset data), set_rx rx' w)
  | [] => ((0, bytes), w)%Z
  end.

(** The loop of [frida_loader_send_bytes], one iteration per unit of
    fuel; [None] when the fuel runs out before the loop ends. *)
Fixpoint send_loop (fuel : nat) (bytes : list byte) (size offset : nat) (w : world)
  : option (bool * world) :=
  if offset =? size then Some (true, w)
  else match fuel with
       | 0 => None
       | S fuel' =>
           let (n, w') := send bytes offset (size - offset) w in
           if negb (n =? -1)%Z then send_loop fuel' bytes size (offset + Z.to_nat n) w'
           else if negb (errno_eqb (w_errno w') EINTR) then Some (false, w')
           else send_loop fuel' bytes size offset w'
       end.

(** Every iteration but the last uses up an event of the send script. *)
Definition frida_loader_send_bytes (bytes : list byte) (size : nat) : M bool := fun w =>
  match send_loop (S (length (w_tx w))) bytes size 0 w with
  | Some r => r
  | None => (false, w)
  end.

(** The loop of [frida_loader_recv_bytes]. *)
Fixpoint recv_loop (fuel : nat) (bytes : list cell) (size offset : nat) (w : world)
  : option (bool * list cell * world) :=
  if offset =? size then Some (true, bytes, w)
  else match fuel with
       | 0 => None
       | S fuel' =>
           let '(n, bytes', w') := recv bytes offset (size - offset) w in
           if (0 <? n)%Z then recv_loop fuel' bytes' size (offset + Z.to_nat n) w'
           else if (n =? 0)%Z then Some (false, bytes', w')
           else if (n =? -1)%Z && negb (errno_eqb (w_errno w') EINTR)
                then Some (false, bytes', w')
                else recv_loop fuel' bytes' size offset w'
       end.

(** Every iteration but the last uses up a byte or a failure of the
    receive script. *)
Definition rx_weight (rx : list rx_event) : nat :=
  list_sum (map (fun ev => match ev with
                           | RxData _ bs => S (length bs)
                           | RxFail _ => 1
                           end) rx).

(** [frida_loader_recv_bytes (s, bytes, size)]: the result and the buffer
    at [bytes] after the call. *)
Definition frida_loader_recv_bytes (bytes : list cell) (size : nat) : M (bool * list cell) :=
  fun w =>
  match recv_loop (S (rx_weight (w_rx w))) bytes size 0 w with
  | Some r => r
  | None => ((false, bytes), w)
  end.

(** ** The value codec *)

Definition frida_loader_send_value (v : list byte) : M bool :=
  let size : byte := u8 (strlen v) in
  ok ← frida_loader_send_bytes [size] 1;
  if negb ok then mret false
  else frida_loader_send_bytes v (Byte.to_nat size).

(** [frida_loader_send (s, "%d", value)], the one format the loader uses. *)
Definition render_decimal (value : Z) : list byte :=
  list_byte_of_string (NilZero.string_of_int (Z.to_int value)).

Definition frida_loader_send (value : Z) : M bool :=
  v ← asprintf (render_decimal value);
  text ← (fun w => (defined_prefix (load v w), w));
  success ← frida_loader_send_value text;
  free v;;
  mret success.

Definition frida_loader_recv_value : M ptr :=
  '(ok, size) ← frida_loader_recv_bytes [None] 1;
  if negb ok then mret NULL
  else
    let size := Byte.to_nat (cell_byte (hd None size)) in
    buf ← malloc size;
    blk ← (fun w => (load buf w, w));
    '(ok, blk') ← frida_loader_recv_bytes blk size;
    store buf blk';;
    if negb ok then free buf;; mret NULL
    else mret buf.

(** ** The handshake, run when the library is loaded *)

(** [frida_log (format)]: the event stands for the attempt to append the
    message to the log file. *)
Definition frida_log (msg : string) : M unit := modify (emit (EvLog msg)).

Definition socket (os : env) : M Z := fun w =>
  (socket_result os, emit (EvSocket (socket_result os)) w).

(** [strcpy (callback.sun_path, callback_path)] and [connect] with
    [callback.sun_len].  The kernel is handed the whole path: this is what
    the C code does when the path and its terminating zero fit the 104
    bytes of [sun_path], and then the eight bits of [sun_len] hold the
    length ([sun_path_fits] below).  A longer path overruns [callback];
    the model does not follow the code there, and the properties of the
    handshake past [socket] are stated for paths that fit. *)
Definition connect (os : env) (s : Z) (callback_path : ptr) : M Z := fun w =>
  let sun_path := defined_prefix (load callback_path w) in
  (connect_result os,
   emit (EvConnect s (firstn (strlen sun_path) sun_path) (connect_result os)) w).

(** [pthread_create (&thread, NULL, frida_loader_run, arg)]: on success
    [frida_loader_run (arg)] runs on a thread of its own and owns [arg].
    The model records the call and does not run the thread: the world
    after the handshake is the handshake's own view, the heap in it being
    what the handshake itself has allocated and not freed. *)
Definition pthread_create (os : env) (arg : ptr) : M Z := fun w =>
  (pthread_create_result os, emit (EvThreadCreate arg (pthread_create_result os)) w).

(** [pthread_detach (thread)]: [thread] was set only if the thread was
    created. *)
Definition pthread_detach (created : bool) : M unit :=
  modify (emit (EvThreadDetach created)).

Definition close (s : Z) : M unit := modify (emit (EvClose s)).

(** The label [beach] of [frida_loader_on_load]. *)
Definition on_load_beach (s : Z) (callback_path : ptr) : M unit :=
  (if negb (s =? -1)%Z then close s else mret tt);;
  free callback_path.

Definition frida_loader_on_load (os : env) : M unit :=
  frida_log "frida_loader_on_load";;
  callback_path ← asprintf (frida_data_dir os ++ list_byte_of_string "/callback");
  s ← socket os;
  if (s =? -1)%Z then on_load_beach s callback_path
  else
    r ← connect os s callback_path;
    if (r =? -1)%Z then on_load_beach s callback_path
    else
      ok ← frida_loader_send (getpid os);
      if negb ok then on_load_beach s callback_path
      else
        pipe_address ← frida_loader_recv_value;
        if is_null pipe_address then on_load_beach s callback_path
        else
          created ← pthread_create os pipe_address;
          pthread_detach (created =? 0)%Z;;
          permission_to_resume ← frida_loader_recv_value;
          free permission_to_resume;;
          on_load_beach s callback_path.

(** ** The agent bootstrap, run on its own thread *)

Inductive exit :=
| Returned
| Aborted.

Definition dlopen (os : env) (path : ptr) : M ptr := fun w =>
  let text := defined_prefix (load path w) in
  (dlopen_result os, emit (EvDlopen (firstn (strlen text) text) (dlopen_result os)) w).

Definition dlsym (os : env) (handle : ptr) (symbol : string) : M ptr := fun w =>
  (dlsym_result os, emit (EvDlsym handle symbol (dlsym_result os)) w).

Definition dlclose (handle : ptr) : M unit := modify (emit (EvDlclose handle)).

(** The label [beach] of [frida_loader_run]. *)
Definition run_beach (agent_path pipe_address : ptr) : M exit :=
  free agent_path;;
  free pipe_address;;
  mret Returned.

(** [agent_main (data_string, mapped_range, parent_thread_id)]: the
    entry point is code of the agent, not of the loader; [agent] is what
    it does, in the world it is called in, before it returns. *)
Definition call_agent_main (agent : ptr -> M unit)
    (data_string mapped_range : ptr) (parent_thread_id : Z) : M unit :=
  modify (emit (EvAgentMain data_string mapped_range parent_thread_id));;
  agent data_string.

(** [frida_loader_run (user_data)], for an entry point that does [agent]. *)
Definition frida_loader_run_with (agent : ptr -> M unit) (os : env) (user_data : ptr)
  : M exit :=
  let pipe_address := user_data in
  agent_path ← asprintf (frida_data_dir os ++ list_byte_of_string "/frida-agent.dylib");
  handle ← dlopen os agent_path;
  if is_null handle then run_beach agent_path pipe_address
  else
    agent_main ← dlsym os handle "frida_agent_main";
    if is_null agent_main then modify (emit EvAbort);; mret Aborted
    else
      call_agent_main agent pipe_address NULL 0;;
      dlclose handle;;
      run_beach agent_path pipe_address.

(** [frida_loader_run (user_data)] with an entry point that returns at
    once and changes nothing. *)
Definition frida_loader_run (os : env) (user_data : ptr) : M exit :=
  frida_loader_run_with (fun _ => mret tt) os user_data.

(** ** The vocabulary of the properties *)

(** A string without a zero byte. *)
Definition nul_free (s : list byte) : bool :=
  forallb (fun b => negb (Byte.eqb b x00)) s.

(** A send script on which no [send] fails for good. *)
Definition tx_ok (ev : tx_event) : bool :=
  match ev with
  | TxAccept _ => true
  | TxFail e => errno_eqb e EINTR
  end.

(** The bytes that reach the loader before the peer closes the connection
    or a [recv] fails for good, whatever the fragments they come in and
    however often a [recv] is interrupted in between. *)
Fixpoint rx_stream (rx : list rx_event) : list byte :=
  match rx with
  | [] => []
  | RxData b bs :: rx' => b :: bs ++ rx_stream rx'
  | RxFail e :: rx' => if errno_eqb e EINTR then rx_stream rx' else []
  end.

(** A receive script of fragments and interrupted receives only. *)
Definition rx_gentle (rx : list rx_event) : bool :=
  forallb (fun ev => match ev with
                     | RxData _ _ => true
                     | RxFail e => errno_eqb e EINTR
                     end) rx.

(** All the bytes of the fragments of a script. *)
Fixpoint rx_data (rx : list rx_event) : list byte :=
  match rx with
  | [] => []
  | RxData b bs :: rx' => b :: bs ++ rx_data rx'
  | RxFail _ :: rx' => rx_data rx'
  end.

(** A peer that delivers [bs] one byte at a time. *)
Definition one_by_one (bs : list byte) : list rx_event :=
  map (fun b => RxData b []) bs.

(** The bytes that [m] puts on the wire when it runs in [w]. *)
Definition sent {A} (m : M A) (w : world) : list byte :=
  drop (length (w_wire w)) (w_wire (snd (m w))).

(** The calls of a trace that start a thread. *)
Definition is_thread_create (ev : event) : bool :=
  match ev with
  | EvThreadCreate _ r => (r =? 0)%Z
  | _ => false
  end.

(** The path the handshake connects to. *)
Definition callback_sun_path (os : env) : list byte :=
  let text := frida_data_dir os ++ list_byte_of_string "/callback" ++ [x00] in
  take (strlen text) text.

(** The path of the socket and its terminating zero fit the 104 bytes of
    [callback.sun_path]: the data directory has at most 94 bytes. *)
Definition sun_path_fits (os : env) : bool :=
  length (frida_data_dir os ++ list_byte_of_string "/callback") <? 104.

(** The calls of the handshake up to its first receive. *)
Definition on_load_prologue (os : env) : list event :=
  [EvLog "frida_loader_on_load";
   EvSocket (socket_result os);
   EvConnect (socket_result os) (callback_sun_path os) (connect_result os)].

(** What a send of [n] bytes comes to on a send script: whether all of
    them are taken, how many are, and the script that is left. *)
Fixpoint tx_run (tx : list tx_event) (n : nat) {struct tx} : bool * nat * list tx_event :=
  match n with
  | 0 => (true, 0, tx)
  | S _ =>
      match tx with
      | [] => (true, n, [])
      | TxAccept k :: tx' =>
          let '(ok, j, rest) := tx_run tx' (n - Nat.min k n) in
          (ok, Nat.min k n + j, rest)
      | TxFail e :: tx' =>
          if errno_eqb e EINTR then tx_run tx' n else (false, 0, tx')
      end
  end.

(** The bytes a send script takes before its end. *)
Definition tx_capacity (tx : list tx_event) : nat :=
  list_sum (map (fun ev => match ev with
                           | TxAccept k => k
                           | TxFail _ => 0
                           end) tx).

(** What [frida_loader_send_value (s, v)] comes to on a send script:
    its result, the bytes it sends and the script that is left. *)
Definition send_value_run (tx : list tx_event) (v : list byte)
  : bool * list byte * list tx_event :=
  let size := u8 (strlen v) in
  let '(ok1, k1, rest1) := tx_run tx 1 in
  if negb ok1 then (false, [], rest1)
  else
    let '(ok2, k2, rest2) := tx_run rest1 (Byte.to_nat size) in
    (ok2, size :: take k2 v, rest2).

(** The frame of a value: its length byte and its payload. *)
Definition frame (v : list byte) : list byte :=
  u8 (strlen v) :: take (strlen v mod 256) v.

Definition is_close (ev : event) : bool :=
  match ev with
  | EvClose _ => true
  | _ => false
  end.

Definition is_agent_main (ev : event) : bool :=
  match ev with
  | EvAgentMain _ _ _ => true
  | _ => false
  end.

(** The calls made between two worlds of one run. *)
Definition new_events (w w' : world) : list event :=
  drop (length (w_trace w)) (w_trace w').

(** * Properties *)

(** Projections of a world that was built field by field. *)
Ltac world_simpl :=
  unfold emit, set_heap, set_rx, set_tx, set_wire, set_errno in *;
  cbn [negb fst snd is_null default id load
       w_heap w_rx w_tx w_wire w_errno w_trace] in *.

(** ** Bytes and buffers *)

Lemma u8_to_nat (n : nat) : Byte.to_nat (u8 n) = n mod 256.
Proof.
  unfold u8. destruct (Byte.of_nat (n mod 256)) as [b|] eqn:E.
  - by apply Byte.to_of_nat.
  - apply Byte.of_nat_None_iff in E.
    pose proof (Nat.mod_upper_bound n 256). lia.
Qed.

Lemma strlen_le (v : list byte) : strlen v <= length v.
Proof.
  induction v as [|b v IH]; simpl; [lia|].
  destruct (Byte.eqb b x00); simpl; lia.
Qed.

Lemma strlen_nul_free (s rest : list byte) :
  nul_free s = true -> strlen (s ++ x00 :: rest) = length s.
Proof.
  induction s as [|b s IH]; simpl; [done|].
  intros [Hb Hs]%andb_prop. destruct (Byte.eqb b x00); [done|].
  by rewrite IH.
Qed.

Lemma write_nil (bytes : list cell) (offset : nat) : write bytes offset [] = bytes.
Proof. unfold write. simpl. rewrite Nat.add_0_r. apply take_drop. Qed.

Lemma write_write (bytes : list cell) (offset : nat) (d1 d2 : list byte) :
  offset <= length bytes ->
  write (write bytes offset d1) (offset + length d1) d2 = write bytes offset (d1 ++ d2).
Proof.
  intros Hle. unfold write.
  assert (Hlen : length (take offset bytes ++ map Some d1) = offset + length d1).
  { rewrite length_app, length_take, length_map. lia. }
  rewrite (app_assoc (take offset bytes) (map Some d1)).
  rewrite take_app_length' by done.
  rewrite length_app, map_app, Nat.add_assoc.
  rewrite drop_app_add' by done.
  rewrite drop_drop, <- !app_assoc. do 3 f_equal.
Qed.

Lemma length_write (bytes : list cell) (offset : nat) (data : list byte) :
  offset + length data <= length bytes -> length (write bytes offset data) = length bytes.
Proof.
  intros H. unfold write.
  rewrite !length_app, length_take, length_map, length_drop. lia.
Qed.

Lemma write_whole (size : nat) (data : list byte) :
  length data = size -> write (repeat None size) 0 data = map Some data.
Proof.
  intros H. unfold write. simpl.
  rewrite drop_ge, app_nil_r; [done|]. rewrite repeat_length. lia.
Qed.

Lemma defined_prefix_map (bs : list byte) : defined_prefix (map Some bs) = bs.
Proof. induction bs as [|b bs IH]; simpl; [done|]. by rewrite IH. Qed.

(** ** Sending *)

Lemma of_nat_not_m1 (n : nat) : (Z.of_nat n =? -1)%Z = false.
Proof. apply Z.eqb_neq. lia. Qed.

Lemma send_loop_done (fuel : nat) (bytes : list byte) (size : nat) (w : world) :
  send_loop fuel bytes size size w = Some (true, w).
Proof. destruct fuel; simpl; by rewrite Nat.eqb_refl. Qed.

Lemma send_loop_spec (fuel : nat) :
  forall (bytes : list byte) (size offset : nat) (w : world),
    forallb tx_ok (w_tx w) = true ->
    length (w_tx w) < fuel ->
    offset <= size ->
    exists tx' e',
      forallb tx_ok tx' = true /\
      send_loop fuel bytes size offset w =
        Some (true, World (w_heap w) (w_rx w) tx'
                      (w_wire w ++ take (size - offset) (drop offset bytes))
                      e' (w_trace w)).
Proof.
  induction fuel as [|fuel IH]; intros bytes size offset [h rx tx wire e tr];
    simpl; intros Hok Hfuel Hle; [lia|].
  destruct (offset =? size) eqn:Heq.
  { apply Nat.eqb_eq in Heq. subst offset. exists tx, e.
    by rewrite Nat.sub_diag, take_0, app_nil_r. }
  apply Nat.eqb_neq in Heq.
  destruct tx as [|[k|e1] tx];
    unfold send, set_wire, set_tx, set_errno; simpl in *.
  - exists [], e. split; [done|].
    rewrite of_nat_not_m1, Nat2Z.id. simpl.
    replace (offset + (size - offset)) with size by lia.
    by rewrite send_loop_done.
  - rewrite of_nat_not_m1, Nat2Z.id. simpl.
    destruct (IH bytes size (offset + k `min` (size - offset))
                (World h rx tx (wire ++ take (k `min` (size - offset)) (drop offset bytes)) e tr))
      as (tx' & e' & Hok' & ->); simpl; [done|lia|lia|].
    exists tx', e'. split; [done|]. do 3 f_equal.
    rewrite <- app_assoc. f_equal.
    rewrite <- drop_drop, take_take_drop. f_equal. lia.
  - apply andb_prop in Hok as [He Hok]. rewrite He. simpl.
    destruct (IH bytes size offset (World h rx tx wire e1 tr))
      as (tx' & e' & Hok' & ->); simpl; [done|lia|done|].
    by exists tx', e'.
Qed.

(** The fuel given by [frida_loader_send_bytes] is enough whatever the
    script: its loop always ends. *)
Lemma send_loop_terminates (fuel : nat) :
  forall (bytes : list byte) (size offset : nat) (w : world),
    length (w_tx w) < fuel ->
    offset <= size ->
    is_Some (send_loop fuel bytes size offset w).
Proof.
  induction fuel as [|fuel IH]; intros bytes size offset [h rx tx wire e tr];
    simpl; intros Hfuel Hle; [lia|].
  destruct (offset =? size) eqn:Heq; [done|].
  apply Nat.eqb_neq in Heq.
  destruct tx as [|[k|e1] tx];
    unfold send, set_wire, set_tx, set_errno; simpl in *.
  - rewrite of_nat_not_m1, Nat2Z.id. simpl.
    replace (offset + (size - offset)) with size by lia.
    by rewrite send_loop_done.
  - rewrite of_nat_not_m1, Nat2Z.id. simpl. apply IH; simpl; lia.
  - destruct (errno_eqb e1 EINTR); simpl; [|done]. apply IH; simpl; lia.
Qed.

Lemma frida_loader_send_bytes_spec (bytes : list byte) (size : nat) (w : world) :
  forallb tx_ok (w_tx w) = true ->
  exists tx' e',
    forallb tx_ok tx' = true /\
    frida_loader_send_bytes bytes size w =
      (true, World (w_heap w) (w_rx w) tx' (w_wire w ++ take size bytes) e' (w_trace w)).
Proof.
  intros Hok. unfold frida_loader_send_bytes.
  destruct (send_loop_spec (S (length (w_tx w))) bytes size 0 w)
    as (tx' & e' & Hok' & ->); [done|lia|lia|].
  exists tx', e'. by rewrite Nat.sub_0_r, drop_0.
Qed.

Lemma frida_loader_send_value_spec (v : list byte) (w : world) :
  forallb tx_ok (w_tx w) = true ->
  exists tx' e',
    forallb tx_ok tx' = true /\
    frida_loader_send_value v w =
      (true, World (w_heap w) (w_rx w) tx'
               (w_wire w ++ u8 (strlen v) :: take (strlen v mod 256) v)
               e' (w_trace w)).
Proof.
  intros Hok. unfold frida_loader_send_value, mbind, M_bind.
  destruct (frida_loader_send_bytes_spec [u8 (strlen v)] 1 w Hok)
    as (tx1 & e1 & Hok1 & ->). simpl.
  destruct (frida_loader_send_bytes_spec v (Byte.to_nat (u8 (strlen v)))
              (World (w_heap w) (w_rx w) tx1 (w_wire w ++ [u8 (strlen v)]) e1 (w_trace w)))
    as (tx2 & e2 & Hok2 & ->); [done|]. simpl.
  exists tx2, e2. split; [done|].
  by rewrite u8_to_nat, <- app_assoc.
Qed.

(** ** Receiving *)

Lemma recv_loop_done (fuel : nat) (bytes : list cell) (size : nat) (w : world) :
  recv_loop fuel bytes size size w = Some (true, bytes, w).
Proof. destruct fuel; simpl; by rewrite Nat.eqb_refl. Qed.

Lemma drop_nil_length {A} (l : list A) (n : nat) : drop n l = [] -> length l <= n.
Proof. intros H. pose proof (length_drop l n) as Hl. rewrite H in Hl. simpl in Hl. lia. Qed.

Lemma drop_cons_length {A} (l l' : list A) (x : A) (n : nat) :
  drop n l = x :: l' -> n < length l.
Proof. intros H. pose proof (length_drop l n) as Hl. rewrite H in Hl. simpl in Hl. lia. Qed.

Lemma recv_loop_spec (fuel : nat) :
  forall (bytes : list cell) (size offset : nat) (w : world),
    rx_weight (w_rx w) < fuel ->
    offset <= size ->
    size <= length bytes ->
    exists ok bytes' rx' e',
      recv_loop fuel bytes size offset w =
        Some (ok, bytes', World (w_heap w) rx' (w_tx w) (w_wire w) e' (w_trace w)) /\
      (size - offset <= length (rx_stream (w_rx w)) ->
         ok = true /\
         bytes' = write bytes offset (take (size - offset) (rx_stream (w_rx w))) /\
         rx_stream rx' = drop (size - offset) (rx_stream (w_rx w))) /\
      (length (rx_stream (w_rx w)) < size - offset ->
         ok = false /\ bytes' = write bytes offset (rx_stream (w_rx w))).
Proof.
  induction fuel as [|fuel IH]; intros bytes size offset [h rx tx wire e tr];
    simpl; intros Hfuel Hle Hcap; [lia|].
  destruct (offset =? size) eqn:Heq.
  { apply Nat.eqb_eq in Heq. subst offset. exists true, bytes, rx, e.
    rewrite Nat.sub_diag, take_0, drop_0, write_nil.
    split; [done|]. split; [done|lia]. }
  apply Nat.eqb_neq in Heq.
  destruct (size - offset) as [|m] eqn:Hlen; [lia|].
  destruct rx as [|[b bs|e1] rx];
    unfold recv, set_rx, set_errno, rx_weight in *; simpl in *.
  - exists false, bytes, [], e. split; [done|]. split; [lia|].
    by rewrite write_nil.
  - destruct (drop m bs) as [|b' bs'] eqn:Hdrop.
    + apply drop_nil_length in Hdrop.
      rewrite (take_ge bs m) by done.
      rewrite Nat2Z.id.
      destruct (IH (write bytes offset (b :: bs)) size (offset + S (length bs))
                  (World h rx tx wire e tr))
        as (ok & bytes' & rx' & e' & -> & Hyes & Hno); simpl.
      { unfold rx_weight. lia. }
      { lia. }
      { rewrite length_write; simpl; lia. }
      simpl in Hyes, Hno.
      exists ok, bytes', rx', e'. split; [done|].
      rewrite length_app in *.
      replace (size - (offset + S (length bs))) with (m - length bs) in * by lia.
      replace (offset + S (length bs)) with (offset + length (b :: bs)) in *
        by (simpl; lia).
      rewrite !write_write in * by lia.
      split.
      * intros H. destruct Hyes as (-> & -> & ->); [lia|].
        by rewrite take_app, drop_app, (take_ge bs m), (drop_ge bs m).
      * intros H. apply Hno. lia.
    + pose proof (drop_cons_length _ _ _ _ Hdrop) as Hm.
      rewrite Nat2Z.id, length_take_le by lia.
      replace (offset + S m) with size by lia.
      rewrite recv_loop_done.
      exists true, (write bytes offset (b :: take m bs)), (RxData b' bs' :: rx), e.
      split; [done|]. rewrite length_app. split; [|lia].
      intros _. split; [done|].
      rewrite take_app_le, drop_app_le, Hdrop by lia. done.
  - destruct (errno_eqb e1 EINTR) eqn:He; simpl.
    + destruct (IH bytes size offset (World h rx tx wire e1 tr))
        as (ok & bytes' & rx' & e' & -> & Hyes & Hno); simpl; [lia|lia|done|].
      simpl in Hyes, Hno. rewrite Hlen in *. by exists ok, bytes', rx', e'.
    + exists false, bytes, rx, e1. split; [done|]. split; [simpl; lia|].
      by rewrite write_nil.
Qed.

Lemma frida_loader_recv_bytes_spec (bytes : list cell) (size : nat) (w : world) :
  size <= length bytes ->
  exists ok bytes' rx' e',
    frida_loader_recv_bytes bytes size w =
      (ok, bytes', World (w_heap w) rx' (w_tx w) (w_wire w) e' (w_trace w)) /\
    (size <= length (rx_stream (w_rx w)) ->
       ok = true /\
       bytes' = write bytes 0 (take size (rx_stream (w_rx w))) /\
       rx_stream rx' = drop size (rx_stream (w_rx w))) /\
    (length (rx_stream (w_rx w)) < size ->
       ok = false /\ bytes' = write bytes 0 (rx_stream (w_rx w))).
Proof.
  intros Hcap. unfold frida_loader_recv_bytes.
  destruct (recv_loop_spec (S (rx_weight (w_rx w))) bytes size 0 w)
    as (ok & bytes' & rx' & e' & -> & H); [lia|lia|done|].
  rewrite Nat.sub_0_r in H. by exists ok, bytes', rx', e'.
Qed.

(** The result of [frida_loader_recv_bytes] and the buffer it leaves, in
    one equation. *)
Lemma frida_loader_recv_bytes_result (bytes : list cell) (size : nat) (w : world) :
  size <= length bytes ->
  fst (frida_loader_recv_bytes bytes size w) =
    (bool_decide (size <= length (rx_stream (w_rx w))),
     write bytes 0 (take size (rx_stream (w_rx w)))).
Proof.
  intros Hcap.
  destruct (frida_loader_recv_bytes_spec bytes size w Hcap)
    as (ok & bytes' & rx' & e' & -> & Hyes & Hno). simpl.
  case_bool_decide as Hdec.
  - by destruct Hyes as (-> & -> & _).
  - destruct Hno as (-> & ->); [lia|]. by rewrite take_ge by lia.
Qed.

Lemma fresh_heap (h : gmap nat (list cell)) : h !! fresh (dom h) = None.
Proof. apply not_elem_of_dom, is_fresh. Qed.

(** What [frida_loader_recv_value] returns and leaves in the heap, read
    off the bytes that arrive. *)
Lemma frida_loader_recv_value_spec (w : world) :
  exists p h' rx' e',
    frida_loader_recv_value w =
      (p, World h' rx' (w_tx w) (w_wire w) e' (w_trace w)) /\
    match rx_stream (w_rx w) with
    | [] => p = NULL /\ h' = w_heap w
    | n :: rest =>
        if decide (Byte.to_nat n <= length rest) then
          p = Ptr (fresh (dom (w_heap w))) /\
          h' = <[fresh (dom (w_heap w)) := map Some (take (Byte.to_nat n) rest)]> (w_heap w) /\
          rx_stream rx' = drop (Byte.to_nat n) rest
        else p = NULL /\ h' = w_heap w
    end.
Proof.
  unfold frida_loader_recv_value, mbind, M_bind.
  destruct (frida_loader_recv_bytes_spec [None] 1 w)
    as (ok & var & rx1 & e1 & -> & Hyes & Hno); [simpl; lia|].
  destruct (rx_stream (w_rx w)) as [|n rest] eqn:Hs; simpl in *.
  { destruct Hno as (-> & _); [lia|]. simpl. by exists NULL, (w_heap w), rx1, e1. }
  destruct Hyes as (-> & -> & Hrx1); [lia|]. simpl. clear Hno.
  rewrite drop_0 in Hrx1.
  set (size := Byte.to_nat n). set (a := fresh (dom (w_heap w))).
  unfold malloc, alloc, set_heap, mret, M_ret. simpl. fold a.
  rewrite lookup_insert_eq. simpl.
  destruct (frida_loader_recv_bytes_spec (repeat None size) size
              (World (<[a := repeat None size]> (w_heap w)) rx1 (w_tx w) (w_wire w) e1 (w_trace w)))
    as (ok & blk' & rx2 & e2 & -> & Hyes & Hno); [by rewrite repeat_length|].
  simpl in *. rewrite Hrx1 in *.
  unfold modify, set_heap. simpl. rewrite insert_insert_eq.
  destruct (decide (size <= length rest)) as [Hle|Hgt].
  - destruct Hyes as (-> & -> & Hrx2); [done|]. simpl.
    exists (Ptr a), (<[a := map Some (take size rest)]> (w_heap w)), rx2, e2.
    rewrite write_whole by (rewrite length_take; lia). done.
  - destruct Hno as (-> & _); [lia|]. simpl.
    exists NULL, (w_heap w), rx2, e2.
    rewrite delete_insert_id by apply fresh_heap. done.
Qed.

Lemma rx_stream_gentle (rx : list rx_event) :
  rx_gentle rx = true -> rx_stream rx = rx_data rx.
Proof.
  induction rx as [|[b bs|e] rx IH]; simpl; [done| |].
  - intros H. by rewrite IH.
  - intros [-> H]%andb_prop. by apply IH.
Qed.

Lemma rx_stream_interrupted (pre post : list rx_event) :
  rx_stream (pre ++ RxFail EINTR :: post) = rx_stream (pre ++ post).
Proof.
  induction pre as [|[b bs|e] pre IH]; simpl; [done| |].
  - by rewrite IH.
  - by rewrite IH.
Qed.

Lemma rx_stream_broken (pre post : list rx_event) (e : errno) :
  rx_gentle pre = true -> errno_eqb e EINTR = false ->
  rx_stream (pre ++ RxFail e :: post) = rx_data pre.
Proof.
  intros Hpre He. induction pre as [|[b bs|e1] pre IH]; simpl in *.
  - by rewrite He.
  - by rewrite IH.
  - apply andb_prop in Hpre as [-> Hpre]. by apply IH.
Qed.

(** ** C5: receiving an exact number of bytes *)

(** C5.  [frida_loader_recv_bytes] fills the buffer with exactly [size]
    bytes however the peer fragments them (first part); when the peer
    closes before [size] bytes have come, it reports failure (second
    part); an interrupted [recv] changes neither the result nor the
    bytes in the buffer (third part); any other error of [recv] before
    the count is filled makes it report failure (fourth part). *)
Theorem frida_loader_recv_bytes_exact (bytes : list cell) (size : nat) (w : world) :
  size <= length bytes ->
  (rx_gentle (w_rx w) = true -> size <= length (rx_data (w_rx w)) ->
   fst (frida_loader_recv_bytes bytes size w) =
     (true, write bytes 0 (take size (rx_data (w_rx w))))) /\
  (rx_gentle (w_rx w) = true -> length (rx_data (w_rx w)) < size ->
   fst (fst (frida_loader_recv_bytes bytes size w)) = false) /\
  (forall pre post, w_rx w = pre ++ RxFail EINTR :: post ->
   fst (frida_loader_recv_bytes bytes size w) =
     fst (frida_loader_recv_bytes bytes size (set_rx (pre ++ post) w))) /\
  (forall pre e post, w_rx w = pre ++ RxFail e :: post ->
   errno_eqb e EINTR = false -> rx_gentle pre = true -> length (rx_data pre) < size ->
   fst (fst (frida_loader_recv_bytes bytes size w)) = false).
Proof.
  intros Hcap. rewrite frida_loader_recv_bytes_result by done.
  split; [|split; [|split]].
  - intros Hgentle Hlong. rewrite rx_stream_gentle by done.
    by rewrite bool_decide_eq_true_2.
  - intros Hgentle Hshort. simpl. rewrite rx_stream_gentle by done.
    apply bool_decide_eq_false_2. lia.
  - intros pre post Hrx. rewrite frida_loader_recv_bytes_result by done.
    simpl. by rewrite Hrx, rx_stream_interrupted.
  - intros pre e post Hrx He Hpre Hshort. simpl.
    rewrite Hrx, rx_stream_broken by done.
    apply bool_decide_eq_false_2. lia.
Qed.

(** Four bytes asked from a peer that sends six one at a time, with an
    interrupted receive in between; then from a peer that closes, and
    from a connection that breaks, after three. *)
Lemma frida_loader_recv_bytes_exact_witness :
  let data := [x41; x00; x42; x43; x44; x45] in
  let buf := repeat None 4 in
  let w rx := World ∅ rx [] [] ENONE [] in
  fst (frida_loader_recv_bytes buf 4 (w (one_by_one data)))
    = (true, [Some x41; Some x00; Some x42; Some x43]) /\
  fst (fst (frida_loader_recv_bytes buf 4 (w (one_by_one (take 3 data))))) = false /\
  fst (frida_loader_recv_bytes buf 4
         (w (one_by_one (take 2 data) ++ RxFail EINTR :: one_by_one (drop 2 data))))
    = fst (frida_loader_recv_bytes buf 4 (w (one_by_one data))) /\
  fst (fst (frida_loader_recv_bytes buf 4
              (w (one_by_one (take 3 data) ++ RxFail ECONNRESET :: one_by_one (drop 3 data)))))
    = false.
Proof.
  intros data buf w.
  assert (Hcap : 4 <= length buf) by (vm_compute; lia).
  split; [|split; [|split]].
  - apply (proj1 (frida_loader_recv_bytes_exact buf 4 (w (one_by_one data)) Hcap));
      [reflexivity | vm_compute; lia].
  - apply (proj1 (proj2 (frida_loader_recv_bytes_exact buf 4
                           (w (one_by_one (take 3 data))) Hcap)));
      [reflexivity | vm_compute; lia].
  - apply (proj1 (proj2 (proj2 (frida_loader_recv_bytes_exact buf 4
             (w (one_by_one (take 2 data) ++ RxFail EINTR :: one_by_one (drop 2 data)))
             Hcap))) (one_by_one (take 2 data)) (one_by_one (drop 2 data))).
    reflexivity.
  - apply (proj2 (proj2 (proj2 (frida_loader_recv_bytes_exact buf 4
             (w (one_by_one (take 3 data) ++ RxFail ECONNRESET :: one_by_one (drop 3 data)))
             Hcap))) (one_by_one (take 3 data)) ECONNRESET (one_by_one (drop 3 data)));
      [reflexivity | reflexivity | reflexivity | vm_compute; lia].
Defined.

(** ** The value codec *)

Lemma strlen_terminated_le (v : list byte) : strlen (v ++ [x00]) <= length v.
Proof.
  induction v as [|b v IH]; simpl; [done|].
  destruct (Byte.eqb b x00); lia.
Qed.

Lemma frida_loader_send_value_sent (v : list byte) (w : world) :
  forallb tx_ok (w_tx w) = true ->
  fst (frida_loader_send_value v w) = true /\
  sent (frida_loader_send_value v) w = u8 (strlen v) :: take (strlen v mod 256) v.
Proof.
  intros Hok. unfold sent.
  destruct (frida_loader_send_value_spec v w Hok) as (tx' & e' & _ & ->).
  simpl. by rewrite drop_app_length.
Qed.

Lemma frida_loader_recv_value_delivers (w : world) (n : byte) (payload more : list byte) :
  rx_stream (w_rx w) = n :: payload ++ more ->
  length payload = Byte.to_nat n ->
  let a := fresh (dom (w_heap w)) in
  fst (frida_loader_recv_value w) = Ptr a /\
  w_heap (snd (frida_loader_recv_value w)) = <[a := map Some payload]> (w_heap w) /\
  load (Ptr a) (snd (frida_loader_recv_value w)) = map Some payload.
Proof.
  intros Hs Hlen a.
  destruct (frida_loader_recv_value_spec w) as (p & h' & rx' & e' & -> & H).
  rewrite Hs in H. rewrite decide_True in H by (rewrite length_app; lia).
  destruct H as (-> & -> & _). simpl.
  rewrite <- Hlen, take_app_length. fold a.
  by rewrite lookup_insert_eq.
Qed.

(** What is sent as a value and received from the same stream, for any
    bytes in memory at [v]. *)
Lemma value_codec_transfer (v more : list byte) (ws wr : world) :
  forallb tx_ok (w_tx ws) = true ->
  rx_stream (w_rx wr) = sent (frida_loader_send_value v) ws ++ more ->
  fst (frida_loader_send_value v ws) = true /\
  exists a,
    fst (frida_loader_recv_value wr) = Ptr a /\
    load (Ptr a) (snd (frida_loader_recv_value wr)) = map Some (take (strlen v mod 256) v).
Proof.
  intros Hok Hrx.
  destruct (frida_loader_send_value_sent v ws Hok) as [Htrue Hsent].
  split; [done|]. rewrite Hsent in Hrx.
  exists (fresh (dom (w_heap wr))).
  apply (frida_loader_recv_value_delivers wr (u8 (strlen v))
           (take (strlen v mod 256) v) more) in Hrx as (H1 & _ & H2); [done|].
  rewrite u8_to_nat, length_take.
  pose proof (strlen_le v). pose proof (Nat.Div0.mod_le (strlen v) 256). lia.
Qed.

(** ** C4: the round trip of the value codec *)

(** C4.  For every string [s] of at most 255 bytes, held in memory as a
    C string, [frida_loader_send_value] puts the length byte and the
    bytes of [s] on the wire, and [frida_loader_recv_value], reading
    what was sent, returns a buffer that holds exactly [s]. *)
Theorem value_codec_roundtrip (s rest more : list byte) (ws wr : world) :
  nul_free s = true ->
  length s <= 255 ->
  forallb tx_ok (w_tx ws) = true ->
  rx_stream (w_rx wr) = sent (frida_loader_send_value (s ++ x00 :: rest)) ws ++ more ->
  fst (frida_loader_send_value (s ++ x00 :: rest) ws) = true /\
  sent (frida_loader_send_value (s ++ x00 :: rest)) ws = u8 (length s) :: s /\
  exists a,
    fst (frida_loader_recv_value wr) = Ptr a /\
    load (Ptr a) (snd (frida_loader_recv_value wr)) = map Some s.
Proof.
  intros Hs Hlen Hok Hrx.
  assert (Htake : take (strlen (s ++ x00 :: rest) mod 256) (s ++ x00 :: rest) = s).
  { rewrite strlen_nul_free, Nat.mod_small, take_app_length by (done || lia). done. }
  destruct (value_codec_transfer _ more ws wr Hok Hrx) as (Htrue & a & Hp & Hload).
  destruct (frida_loader_send_value_sent (s ++ x00 :: rest) ws Hok) as [_ Hsent].
  rewrite Htake in *. rewrite strlen_nul_free in Hsent by done.
  split; [done|]. split; [done|]. by exists a.
Qed.

(** The string [pipe://abc], sent in two steps and received in two
    fragments. *)
Lemma value_codec_roundtrip_witness :
  let s := list_byte_of_string "pipe://abc" in
  let ws := World ∅ [] [TxAccept 0; TxFail EINTR; TxAccept 4] [] ENONE [] in
  let wr := World ∅ [RxData x0a [x70; x69]; RxFail EINTR;
                     RxData x70 (list_byte_of_string "e://abc")] [] [] ENONE [] in
  fst (frida_loader_send_value (s ++ [x00]) ws) = true /\
  sent (frida_loader_send_value (s ++ [x00])) ws = u8 (length s) :: s /\
  exists a,
    fst (frida_loader_recv_value wr) = Ptr a /\
    load (Ptr a) (snd (frida_loader_recv_value wr)) = map Some s.
Proof.
  intros s ws wr.
  apply (value_codec_roundtrip s [] [] ws wr);
    [reflexivity | vm_compute; lia | reflexivity | reflexivity].
Defined.

(** ** C3: values of 0, 1, 127 and 255 bytes *)

(** C3, as amended.  A value of 0, 1, 127 or 255 bytes given to
    [frida_loader_send_value] as a C string and received by
    [frida_loader_recv_value] from the same stream arrives up to its
    first zero byte: unchanged when it has no zero byte, cut there
    otherwise. *)
Theorem value_transfer_lengths (v more : list byte) (ws wr : world) :
  length v = 0 \/ length v = 1 \/ length v = 127 \/ length v = 255 ->
  forallb tx_ok (w_tx ws) = true ->
  rx_stream (w_rx wr) = sent (frida_loader_send_value (v ++ [x00])) ws ++ more ->
  fst (frida_loader_send_value (v ++ [x00]) ws) = true /\
  exists a,
    fst (frida_loader_recv_value wr) = Ptr a /\
    load (Ptr a) (snd (frida_loader_recv_value wr))
      = map Some (take (strlen (v ++ [x00])) v) /\
    (nul_free v = true ->
     load (Ptr a) (snd (frida_loader_recv_value wr)) = map Some v).
Proof.
  intros Hlen Hok Hrx.
  destruct (value_codec_transfer _ more ws wr Hok Hrx) as (Htrue & a & Hp & Hload).
  pose proof (strlen_terminated_le v) as Hle.
  rewrite Nat.mod_small, take_app_le in Hload by lia.
  split; [done|]. exists a. split; [done|]. split; [done|].
  intros Hfree. rewrite Hload, strlen_nul_free by done. by rewrite take_ge.
Qed.

(** A value of one byte, received by a peer that reads what was sent. *)
Lemma value_transfer_lengths_witness :
  let v := [x41] in
  let ws := World ∅ [] [] [] ENONE [] in
  let wr := World ∅ (one_by_one (sent (frida_loader_send_value (v ++ [x00])) ws))
              [] [] ENONE [] in
  fst (frida_loader_send_value (v ++ [x00]) ws) = true /\
  exists a,
    fst (frida_loader_recv_value wr) = Ptr a /\
    load (Ptr a) (snd (frida_loader_recv_value wr))
      = map Some (take (strlen (v ++ [x00])) v) /\
    (nul_free v = true ->
     load (Ptr a) (snd (frida_loader_recv_value wr)) = map Some v).
Proof.
  intros v ws wr.
  apply (value_transfer_lengths v [] ws wr);
    [right; left; reflexivity | reflexivity | reflexivity].
Defined.

(** C3 as stated fails: of a value of 127 bytes whose second byte is
    zero, one byte arrives. *)
Lemma value_transfer_embedded_zero :
  let v := x41 :: x00 :: repeat x42 125 in
  let ws := World ∅ [] [] [] ENONE [] in
  let wr := World ∅ (one_by_one (sent (frida_loader_send_value (v ++ [x00])) ws))
              [] [] ENONE [] in
  length v = 127 /\
  fst (frida_loader_send_value (v ++ [x00]) ws) = true /\
  rx_stream (w_rx wr) = sent (frida_loader_send_value (v ++ [x00])) ws /\
  fst (frida_loader_recv_value wr) = Ptr 0 /\
  load (Ptr 0) (snd (frida_loader_recv_value wr)) = [Some x41] /\
  load (Ptr 0) (snd (frida_loader_recv_value wr)) <> map Some v.
Proof.
  intros v ws wr. repeat split; try (vm_compute; reflexivity).
  vm_compute. discriminate.
Qed.

(** ** C10: strings longer than 255 bytes *)

(** C10.  For a string of more than 255 bytes [frida_loader_send_value]
    reports no error: when no [send] fails it returns true, having sent
    the length modulo 256 as the length byte and then that many leading
    bytes of the string. *)
Theorem frida_loader_send_value_long (v : list byte) (w : world) :
  255 < strlen v ->
  forallb tx_ok (w_tx w) = true ->
  fst (frida_loader_send_value v w) = true /\
  sent (frida_loader_send_value v) w = u8 (strlen v) :: take (strlen v mod 256) v /\
  Byte.to_nat (u8 (strlen v)) = strlen v mod 256 /\
  length (take (strlen v mod 256) v) = strlen v mod 256 /\
  strlen v mod 256 < strlen v.
Proof.
  intros Hlong Hok.
  destruct (frida_loader_send_value_sent v w Hok) as [Htrue Hsent].
  pose proof (strlen_le v). pose proof (Nat.mod_upper_bound (strlen v) 256).
  repeat split; try done.
  - apply u8_to_nat.
  - rewrite length_take. lia.
  - lia.
Qed.

(** A string of 300 bytes: the length byte is 44 and 44 bytes follow. *)
Lemma frida_loader_send_value_long_witness :
  let v := repeat x61 300 ++ [x00] in
  let w := World ∅ [] [TxAccept 1; TxFail EINTR; TxAccept 10] [] ENONE [] in
  fst (frida_loader_send_value v w) = true /\
  sent (frida_loader_send_value v) w = x2c :: repeat x61 44.
Proof.
  intros v w.
  destruct (frida_loader_send_value_long v w) as (H1 & H2 & _);
    [vm_compute; lia | reflexivity |].
  split; [exact H1|]. rewrite H2. vm_compute. reflexivity.
Defined.

(** ** C6: a failed receive of a value leaves nothing allocated *)

(** C6.  When the length byte never arrives, or fewer payload bytes
    arrive than the length byte announced, [frida_loader_recv_value]
    reports failure and the heap is as it was before the call: the buffer
    allocated for the payload has been freed. *)
Theorem frida_loader_recv_value_failure_frees (w : world) :
  rx_stream (w_rx w) = [] \/
  (exists n rest, rx_stream (w_rx w) = n :: rest /\ length rest < Byte.to_nat n) ->
  fst (frida_loader_recv_value w) = NULL /\
  w_heap (snd (frida_loader_recv_value w)) = w_heap w.
Proof.
  intros Hfail.
  destruct (frida_loader_recv_value_spec w) as (p & h' & rx' & e' & -> & H).
  simpl. destruct Hfail as [Hs|(n & rest & Hs & Hshort)]; rewrite Hs in H.
  - done.
  - by rewrite decide_False in H by lia.
Qed.

(** Five bytes are announced, two arrive, and the connection breaks; in
    a heap that holds another block. *)
Lemma frida_loader_recv_value_failure_frees_witness :
  let w := World {[ 0 := [Some x2f; Some x00] ]}
             [RxData x05 [x61]; RxFail EINTR; RxData x62 []; RxFail ECONNRESET]
             [] [] ENONE [] in
  fst (frida_loader_recv_value w) = NULL /\
  w_heap (snd (frida_loader_recv_value w)) = w_heap w.
Proof.
  intros w. apply (frida_loader_recv_value_failure_frees w).
  right. exists x05, [x61; x62]. split; [reflexivity | vm_compute; lia].
Defined.

(** ** The agent bootstrap *)

Lemma frida_loader_run_loaded (os : env) (p : ptr) (w : world) :
  is_null (dlopen_result os) = false ->
  is_null (dlsym_result os) = false ->
  let text := frida_data_dir os ++ list_byte_of_string "/frida-agent.dylib" ++ [x00] in
  frida_loader_run os p w =
    (Returned,
     World (w_heap (snd (free p w))) (w_rx w) (w_tx w) (w_wire w) (w_errno w)
       (w_trace w ++ [EvDlopen (take (strlen text) text) (dlopen_result os);
                      EvDlsym (dlopen_result os) "frida_agent_main" (dlsym_result os);
                      EvAgentMain p NULL 0;
                      EvDlclose (dlopen_result os)])).
Proof.
  intros Hopen Hsym text.
  unfold frida_loader_run, frida_loader_run_with, call_agent_main, run_beach, asprintf, alloc, dlopen, dlsym, dlclose,
    mbind, M_bind, mret, M_ret, modify, emit, set_heap, load; simpl.
  rewrite Hopen. simpl. rewrite Hsym. simpl.
  rewrite lookup_insert_eq. simpl.
  rewrite delete_insert_id by apply fresh_heap.
  rewrite defined_prefix_map, <- !app_assoc. simpl.
  by destruct p.
Qed.

(** ** C9: the buffer of a received value is not terminated *)

(** C9.  When [frida_loader_recv_value] succeeds on a length byte [n],
    the block it returns holds the [n] payload bytes and is [n] bytes
    long, with no terminating zero after them; and it is this pointer
    that [frida_loader_run] passes to the entry point of the agent. *)
Theorem frida_loader_recv_value_unterminated (w : world) (a : nat) :
  fst (frida_loader_recv_value w) = Ptr a ->
  exists n payload more,
    rx_stream (w_rx w) = n :: payload ++ more /\
    length payload = Byte.to_nat n /\
    w_heap (snd (frida_loader_recv_value w)) !! a = Some (map Some payload) /\
    length (load (Ptr a) (snd (frida_loader_recv_value w))) = Byte.to_nat n /\
    forall os w',
      is_null (dlopen_result os) = false ->
      is_null (dlsym_result os) = false ->
      In (EvAgentMain (Ptr a) NULL 0) (w_trace (snd (frida_loader_run os (Ptr a) w'))).
Proof.
  intros Hp.
  destruct (frida_loader_recv_value_spec w) as (p & h' & rx' & e' & Heq & H).
  rewrite Heq in *. simpl in Hp. subst p.
  destruct (rx_stream (w_rx w)) as [|n rest]; [by destruct H|].
  destruct (decide (Byte.to_nat n <= length rest)) as [Hle|]; [|by destruct H].
  destruct H as (Ha & -> & _). injection Ha as ->.
  exists n, (take (Byte.to_nat n) rest), (drop (Byte.to_nat n) rest).
  simpl. rewrite take_drop, lookup_insert_eq. simpl.
  rewrite length_map, length_take_le by done.
  repeat split; try done.
  intros os w' Hopen Hsym. rewrite frida_loader_run_loaded by done. simpl.
  apply in_or_app. right. simpl. tauto.
Qed.

(** The value [ab] is received into a block of two cells, and the
    bootstrap hands that block to the agent. *)
Lemma frida_loader_recv_value_unterminated_witness :
  let w := World ∅ [RxData x02 [x61; x62]] [] [] ENONE [] in
  fst (frida_loader_recv_value w) = Ptr 0 /\
  load (Ptr 0) (snd (frida_loader_recv_value w)) = [Some x61; Some x62] /\
  exists n payload more,
    rx_stream (w_rx w) = n :: payload ++ more /\
    length payload = Byte.to_nat n /\
    w_heap (snd (frida_loader_recv_value w)) !! 0 = Some (map Some payload) /\
    length (load (Ptr 0) (snd (frida_loader_recv_value w))) = Byte.to_nat n /\
    forall os w',
      is_null (dlopen_result os) = false ->
      is_null (dlsym_result os) = false ->
      In (EvAgentMain (Ptr 0) NULL 0) (w_trace (snd (frida_loader_run os (Ptr 0) w'))).
Proof.
  intros w. split; [reflexivity|]. split; [reflexivity|].
  apply (frida_loader_recv_value_unterminated w 0). reflexivity.
Defined.

(** ** C7: the call of the agent's entry point *)

Lemma run_beach_frees (agent_path pipe_address : nat) (w : world) :
  run_beach (Ptr agent_path) (Ptr pipe_address) w =
    (Returned,
     World (delete pipe_address (delete agent_path (w_heap w)))
       (w_rx w) (w_tx w) (w_wire w) (w_errno w) (w_trace w)).
Proof. by destruct w. Qed.

(** The bootstrap around the call of an entry point that does [agent]. *)
Lemma frida_loader_run_with_loaded (agent : ptr -> M unit) (os : env) (p : ptr) (w : world) :
  is_null (dlopen_result os) = false ->
  is_null (dlsym_result os) = false ->
  let text := frida_data_dir os ++ list_byte_of_string "/frida-agent.dylib" ++ [x00] in
  let path := fresh (dom (w_heap w)) in
  let w_call :=
    World (<[path := map Some text]> (w_heap w)) (w_rx w) (w_tx w) (w_wire w) (w_errno w)
      (w_trace w ++ [EvDlopen (take (strlen text) text) (dlopen_result os);
                     EvDlsym (dlopen_result os) "frida_agent_main" (dlsym_result os);
                     EvAgentMain p NULL 0]) in
  frida_loader_run_with agent os p w =
    run_beach (Ptr path) p (emit (EvDlclose (dlopen_result os)) (snd (agent p w_call))).
Proof.
  intros Hopen Hsym text path w_call.
  unfold frida_loader_run_with, call_agent_main, asprintf, alloc, dlopen, dlsym, dlclose,
    mbind, M_bind, mret, M_ret, modify.
  world_simpl. rewrite Hopen. world_simpl. rewrite Hsym. world_simpl.
  rewrite lookup_insert_eq. world_simpl.
  rewrite defined_prefix_map, <- !app_assoc.
  fold path. change (frida_data_dir os ++ list_byte_of_string "/frida-agent.dylib" ++ [x00])
    with text.
  cbn [app]. fold w_call.
  by destruct (agent p w_call) as [[] w_ret].
Qed.

(** C7.  When the module loads and its entry symbol resolves,
    [frida_loader_run] calls the entry point with the rendezvous address
    it was given, a null pointer and zero.  At the call the block of the
    address is in the heap as it was given: in [w_call], the world the
    entry point is called in, it is found unchanged, whatever the entry
    point goes on to do.  Only when the entry point has returned, in
    [w_ret], is the module unloaded and are the path and the block of
    the address freed.  With an entry point that returns at once the run
    is these four calls, and of the heap it found only the block of the
    address is gone. *)
Theorem frida_loader_run_invokes_agent
    (agent : ptr -> M unit) (os : env) (a : nat) (w : world) :
  is_null (dlopen_result os) = false ->
  is_null (dlsym_result os) = false ->
  let text := frida_data_dir os ++ list_byte_of_string "/frida-agent.dylib" ++ [x00] in
  let path := fresh (dom (w_heap w)) in
  let w_call :=
    World (<[path := map Some text]> (w_heap w)) (w_rx w) (w_tx w) (w_wire w) (w_errno w)
      (w_trace w ++ [EvDlopen (take (strlen text) text) (dlopen_result os);
                     EvDlsym (dlopen_result os) "frida_agent_main" (dlsym_result os);
                     EvAgentMain (Ptr a) NULL 0]) in
  let w_ret := snd (agent (Ptr a) w_call) in
  let r := frida_loader_run_with agent os (Ptr a) w in
  let r0 := frida_loader_run os (Ptr a) w in
  (forall blk, w_heap w !! a = Some blk -> w_heap w_call !! a = Some blk) /\
  fst r = Returned /\
  w_trace (snd r) = w_trace w_ret ++ [EvDlclose (dlopen_result os)] /\
  w_heap (snd r) = delete a (delete path (w_heap w_ret)) /\
  fst r0 = Returned /\
  w_trace (snd r0) =
    w_trace w ++ [EvDlopen (take (strlen text) text) (dlopen_result os);
                  EvDlsym (dlopen_result os) "frida_agent_main" (dlsym_result os);
                  EvAgentMain (Ptr a) NULL 0;
                  EvDlclose (dlopen_result os)] /\
  w_heap (snd r0) = delete a (w_heap w).
Proof.
  intros Hopen Hsym text path w_call w_ret r r0. subst r r0.
  rewrite frida_loader_run_loaded by done.
  rewrite frida_loader_run_with_loaded by done.
  fold text path w_call w_ret. rewrite run_beach_frees.
  split; [|done].
  intros blk Hblk. subst w_call. cbn [w_heap].
  rewrite lookup_insert_ne; [done|].
  intros Heq. rewrite <- Heq in Hblk. subst path. by rewrite fresh_heap in Hblk.
Qed.

(** The bootstrap handed the block of [pipe://abc], in a heap that holds
    one more block, with an entry point that logs the bytes it finds at
    its argument. *)
Lemma frida_loader_run_invokes_agent_witness :
  let agent := fun (p : ptr) (w : world) =>
    (tt, emit (EvLog (string_of_list_byte (defined_prefix (load p w)))) w) in
  let os := Env (list_byte_of_string "/tmp/frida") 1234 3 0 0 (Ptr 77) (Ptr 88) in
  let w := World {[ 1 := map Some (list_byte_of_string "pipe://abc"); 5 := [Some x2a] ]}
             [] [] [] ENONE [] in
  let r := frida_loader_run_with agent os (Ptr 1) w in
  let r0 := frida_loader_run os (Ptr 1) w in
  fst r = Returned /\
  w_trace (snd r) =
    [EvDlopen (list_byte_of_string "/tmp/frida/frida-agent.dylib") (Ptr 77);
     EvDlsym (Ptr 77) "frida_agent_main" (Ptr 88);
     EvAgentMain (Ptr 1) NULL 0;
     EvLog "pipe://abc";
     EvDlclose (Ptr 77)] /\
  w_heap (snd r) = delete 1 (w_heap w) /\
  fst r0 = Returned /\
  w_trace (snd r0) =
    [EvDlopen (list_byte_of_string "/tmp/frida/frida-agent.dylib") (Ptr 77);
     EvDlsym (Ptr 77) "frida_agent_main" (Ptr 88);
     EvAgentMain (Ptr 1) NULL 0;
     EvDlclose (Ptr 77)] /\
  w_heap (snd r0) = delete 1 (w_heap w).
Proof.
  intros agent os w r r0.
  destruct (frida_loader_run_invokes_agent agent os 1 w eq_refl eq_refl)
    as (_ & H1 & H2 & H3 & H4 & H5 & H6).
  split; [exact H1|].
  split; [etrans; [exact H2|vm_compute; reflexivity]|].
  split; [etrans; [exact H3|vm_compute; reflexivity]|].
  split; [exact H4|]. split; [exact H5|exact H6].
Defined.

(** ** The handshake *)

Lemma frida_loader_send_spec (value : Z) (w : world) :
  forallb tx_ok (w_tx w) = true ->
  exists tx' wire' e',
    frida_loader_send value w =
      (true, World (w_heap w) (w_rx w) tx' wire' e' (w_trace w)).
Proof.
  intros Hok.
  unfold frida_loader_send, asprintf, alloc, mbind, M_bind, mret, M_ret.
  set (a := fresh (dom (w_heap w))).
  set (w1 := set_heap _ w).
  destruct (frida_loader_send_value_spec (defined_prefix (load (Ptr a) w1)) w1 Hok)
    as (tx' & e' & _ & ->).
  subst w1. unfold free, modify, set_heap. simpl.
  rewrite delete_insert_id by apply fresh_heap. by eexists _, _, _.
Qed.

(** A received value that is freed at once leaves the heap as it was. *)
Lemma frida_loader_recv_value_free (w : world) :
  exists p w1 rx' e',
    frida_loader_recv_value w = (p, w1) /\
    free p w1 = (tt, World (w_heap w) rx' (w_tx w) (w_wire w) e' (w_trace w)) /\
    forall n token more,
      rx_stream (w_rx w) = n :: token ++ more ->
      length token = Byte.to_nat n ->
      rx_stream rx' = more.
Proof.
  destruct (frida_loader_recv_value_spec w) as (p & h' & rx' & e' & -> & H).
  exists p, (World h' rx' (w_tx w) (w_wire w) e' (w_trace w)), rx', e'.
  split; [done|].
  destruct (rx_stream (w_rx w)) as [|n rest].
  { destruct H as (-> & ->). split; [done|]. intros; discriminate. }
  destruct (decide (Byte.to_nat n <= length rest)) as [Hle|Hgt].
  - destruct H as (-> & -> & Hrx). unfold free, modify, set_heap. simpl.
    rewrite delete_insert_id by apply fresh_heap. split; [done|].
    intros n' token more [= <- ->] Hlen.
    by rewrite Hrx, <- Hlen, drop_app_length.
  - destruct H as (-> & ->). split; [done|].
    intros n' token more [= <- ->] Hlen. rewrite length_app in Hgt. lia.
Qed.

Lemma frida_loader_recv_value_failure_or (w : world) :
  rx_stream (w_rx w) = [] \/
  (exists n rest, rx_stream (w_rx w) = n :: rest /\ length rest < Byte.to_nat n) ->
  exists rx' e',
    frida_loader_recv_value w =
      (NULL, World (w_heap w) rx' (w_tx w) (w_wire w) e' (w_trace w)).
Proof.
  intros Hfail.
  destruct (frida_loader_recv_value_spec w) as (p & h' & rx' & e' & -> & H).
  exists rx', e'.
  destruct Hfail as [Hs|(n & rest & Hs & Hshort)]; rewrite Hs in H.
  - by destruct H as (-> & ->).
  - rewrite decide_False in H by lia. by destruct H as (-> & ->).
Qed.

(** The handshake when the rendezvous address does not arrive. *)
Lemma on_load_aborted (os : env) (w : world) :
  (socket_result os =? -1)%Z = false ->
  (connect_result os =? -1)%Z = false ->
  forallb tx_ok (w_tx w) = true ->
  rx_stream (w_rx w) = [] \/
  (exists n rest, rx_stream (w_rx w) = n :: rest /\ length rest < Byte.to_nat n) ->
  exists rx' tx' wire' e',
    frida_loader_on_load os w =
      (tt, World (w_heap w) rx' tx' wire' e'
             (w_trace w ++ on_load_prologue os ++ [EvClose (socket_result os)])).
Proof.
  intros Hsock Hconn Hok Hfail.
  unfold frida_loader_on_load, frida_log, asprintf, alloc, socket, connect,
    mbind, M_bind, mret, M_ret, modify.
  set (a0 := fresh (dom (w_heap w))).
  cbn [fst snd w_heap w_rx w_tx w_wire w_errno w_trace emit set_heap load].
  rewrite Hsock, Hconn.
  match goal with |- context [frida_loader_send _ ?w1] =>
    destruct (frida_loader_send_spec (getpid os) w1 Hok) as (tx' & wire' & e' & ->)
  end.
  cbn [negb fst snd w_heap w_rx w_tx w_wire w_errno w_trace].
  match goal with |- context [frida_loader_recv_value ?w2] =>
    destruct (frida_loader_recv_value_failure_or w2 Hfail) as (rx2 & e2 & ->)
  end.
  cbn [is_null]. unfold on_load_beach, close, free, modify, emit, set_heap,
    mbind, M_bind, mret, M_ret.
  rewrite Hsock. cbn [negb fst snd w_heap w_rx w_tx w_wire w_errno w_trace].
  rewrite delete_insert_id by apply fresh_heap.
  rewrite lookup_insert_eq. cbn [default]. unfold id. rewrite defined_prefix_map.
  exists rx2, tx', wire', e2. unfold on_load_prologue, callback_sun_path.
  rewrite <- !app_assoc. done.
Qed.

(** The handshake when the rendezvous address arrives: the thread is
    asked for, the resume token is awaited and dropped, the socket is
    closed. *)
Lemma on_load_dispatched (os : env) (w : world) (n : byte) (payload more : list byte) :
  (socket_result os =? -1)%Z = false ->
  (connect_result os =? -1)%Z = false ->
  forallb tx_ok (w_tx w) = true ->
  rx_stream (w_rx w) = n :: payload ++ more ->
  length payload = Byte.to_nat n ->
  exists a rx' tx' wire' e',
    w_heap w !! a = None /\
    frida_loader_on_load os w =
      (tt, World (<[a := map Some payload]> (w_heap w)) rx' tx' wire' e'
             (w_trace w ++ on_load_prologue os ++
              [EvThreadCreate (Ptr a) (pthread_create_result os);
               EvThreadDetach (pthread_create_result os =? 0)%Z;
               EvClose (socket_result os)])) /\
    forall m token more',
      more = m :: token ++ more' ->
      length token = Byte.to_nat m ->
      rx_stream rx' = more'.
Proof.
  intros Hsock Hconn Hok Hs Hlen.
  unfold frida_loader_on_load, frida_log, asprintf, alloc, socket, connect,
    pthread_create, pthread_detach, mbind, M_bind, mret, M_ret, modify.
  set (a0 := fresh (dom (w_heap w))).
  set (cb := map Some _).
  world_simpl. rewrite Hsock, Hconn.
  match goal with |- context [frida_loader_send _ ?w1] =>
    destruct (frida_loader_send_spec (getpid os) w1 Hok) as (tx' & wire' & e' & ->)
  end.
  world_simpl.
  set (a := fresh (dom (<[a0 := cb]> (w_heap w)))).
  assert (Hfresh : (<[a0 := cb]> (w_heap w)) !! a = None) by apply fresh_heap.
  assert (Hne : a0 <> a).
  { intros Heq. rewrite <- Heq in Hfresh. by rewrite lookup_insert_eq in Hfresh. }
  match goal with |- context [frida_loader_recv_value ?w2] =>
    destruct (frida_loader_recv_value_spec w2) as (p & h' & rx1 & e1 & -> & Hspec)
  end.
  world_simpl. rewrite Hs in Hspec.
  rewrite decide_True in Hspec by (rewrite length_app; lia).
  fold a in Hspec. destruct Hspec as (-> & -> & Hrx1).
  rewrite <- Hlen, drop_app_length, take_app_length in *.
  world_simpl.
  match goal with |- context [frida_loader_recv_value ?w3] =>
    destruct (frida_loader_recv_value_free w3)
      as (p2 & w4 & rx2 & e2 & -> & Hfree & Hrx2)
  end.
  rewrite Hfree. world_simpl. rewrite Hrx1 in Hrx2.
  unfold on_load_beach, close, free, modify, mbind, M_bind, mret, M_ret.
  rewrite Hsock. world_simpl.
  rewrite delete_insert_ne, delete_insert_id by (done || apply fresh_heap).
  rewrite lookup_insert_eq. world_simpl. subst cb.
  rewrite defined_prefix_map. world_simpl.
  exists a, rx2, tx', wire', e2. split.
  { by rewrite lookup_insert_ne in Hfresh. }
  split; [|done].
  unfold on_load_prologue, callback_sun_path. subst a a0.
  rewrite <- !app_assoc. reflexivity.
Qed.

(** ** C2: the rendezvous address does not arrive *)

(** C2, as amended.  For a data directory whose socket path fits
    [sun_path]: when the rendezvous address is not received (its length
    byte never arrives, or fewer payload bytes arrive than announced,
    before the peer closes or a receive fails for good) the handshake
    makes no call after [connect] but [close]: no thread is created, and
    the heap is as it was.  A value of length zero is no such failure:
    the thread is created with its empty block. *)
Theorem on_load_receive_failure_aborts (os : env) (w : world) :
  sun_path_fits os = true ->
  (socket_result os =? -1)%Z = false ->
  (connect_result os =? -1)%Z = false ->
  forallb tx_ok (w_tx w) = true ->
  let w' := snd (frida_loader_on_load os w) in
  (rx_stream (w_rx w) = [] \/
   (exists n rest, rx_stream (w_rx w) = n :: rest /\ length rest < Byte.to_nat n) ->
   w_trace w' = w_trace w ++ on_load_prologue os ++ [EvClose (socket_result os)] /\
   existsb is_thread_create (w_trace w') = existsb is_thread_create (w_trace w) /\
   w_heap w' = w_heap w) /\
  (forall more, rx_stream (w_rx w) = x00 :: more ->
   exists a,
     w_heap w !! a = None /\
     w_heap w' = <[a := []]> (w_heap w) /\
     w_trace w' =
       w_trace w ++ on_load_prologue os ++
       [EvThreadCreate (Ptr a) (pthread_create_result os);
        EvThreadDetach (pthread_create_result os =? 0)%Z;
        EvClose (socket_result os)]).
Proof.
  intros Hfits Hsock Hconn Hok w'. subst w'. split.
  - intros Hfail.
    destruct (on_load_aborted os w Hsock Hconn Hok Hfail)
      as (rx' & tx' & wire' & e' & ->).
    cbn [snd w_trace w_heap]. split; [done|]. split; [|done].
    rewrite existsb_app. simpl. by rewrite orb_false_r.
  - intros more Hs.
    destruct (on_load_dispatched os w x00 [] more Hsock Hconn Hok Hs eq_refl)
      as (a & rx' & tx' & wire' & e' & Ha & -> & _).
    exists a. by cbn [snd w_trace w_heap].
Qed.

(** The controller closes after it has read the process identifier; and
    a controller that sends an address of length zero. *)
Lemma on_load_receive_failure_aborts_witness :
  let os := Env (list_byte_of_string "/tmp/frida") 1234 3 0 0 (Ptr 77) (Ptr 88) in
  let w := World ∅ [] [TxAccept 2] [] ENONE [] in
  let w' := snd (frida_loader_on_load os w) in
  w_trace w' = on_load_prologue os ++ [EvClose 3] /\
  existsb is_thread_create (w_trace w') = false /\
  w_heap w' = ∅.
Proof.
  intros os w w'.
  apply (proj1 (on_load_receive_failure_aborts os w eq_refl eq_refl eq_refl eq_refl)).
  left. reflexivity.
Defined.

(** C2 as stated fails: an address of length zero is received, and the
    thread is created with it. *)
Lemma on_load_zero_length_address_dispatched :
  let os := Env (list_byte_of_string "/tmp/frida") 1234 3 0 0 (Ptr 77) (Ptr 88) in
  let w := World ∅ [RxData x00 []] [] [] ENONE [] in
  let w' := snd (frida_loader_on_load os w) in
  rx_stream (w_rx w) = [x00] /\
  w_trace w' =
    on_load_prologue os ++
    [EvThreadCreate (Ptr 1) 0; EvThreadDetach true; EvClose 3] /\
  existsb is_thread_create (w_trace w') = true /\
  w_heap w' !! 1 = Some [].
Proof. intros os w w'. repeat split; vm_compute; reflexivity. Qed.

(** ** C8: the resume token does not arrive *)

(** C8.  For a data directory whose socket path fits [sun_path]: when
    the rendezvous address has been received and the resume token is not
    (the second [frida_loader_recv_value] fails), the handshake ends as
    when the token arrives: the thread has been asked for with the
    address, the socket is closed, the routine returns, and of the blocks
    the handshake itself allocated none is left but the one handed to the
    thread. *)
Theorem on_load_resume_failure_tolerated
    (os : env) (w : world) (n : byte) (payload more : list byte) :
  sun_path_fits os = true ->
  (socket_result os =? -1)%Z = false ->
  (connect_result os =? -1)%Z = false ->
  forallb tx_ok (w_tx w) = true ->
  rx_stream (w_rx w) = n :: payload ++ more ->
  length payload = Byte.to_nat n ->
  more = [] \/ (exists m rest, more = m :: rest /\ length rest < Byte.to_nat m) ->
  let w' := snd (frida_loader_on_load os w) in
  (forall w2, rx_stream (w_rx w2) = more -> fst (frida_loader_recv_value w2) = NULL) /\
  fst (frida_loader_on_load os w) = tt /\
  exists a,
    w_heap w !! a = None /\
    w_heap w' = <[a := map Some payload]> (w_heap w) /\
    w_trace w' =
      w_trace w ++ on_load_prologue os ++
      [EvThreadCreate (Ptr a) (pthread_create_result os);
       EvThreadDetach (pthread_create_result os =? 0)%Z;
       EvClose (socket_result os)].
Proof.
  intros Hfits Hsock Hconn Hok Hs Hlen Hmore w'. subst w'. split.
  { intros w2 Hw2. rewrite <- Hw2 in Hmore.
    by destruct (frida_loader_recv_value_failure_or w2 Hmore) as (rx' & e' & ->). }
  destruct (on_load_dispatched os w n payload more Hsock Hconn Hok Hs Hlen)
    as (a & rx' & tx' & wire' & e' & Ha & -> & _).
  split; [done|]. exists a. by cbn [snd w_trace w_heap].
Qed.

(** The controller sends [pipe://abc], then half a resume token, and
    closes. *)
Lemma on_load_resume_failure_tolerated_witness :
  let os := Env (list_byte_of_string "/tmp/frida") 1234 3 0 0 (Ptr 77) (Ptr 88) in
  let address := list_byte_of_string "pipe://abc" in
  let w := World ∅ [RxData x0a address; RxData x02 [x67]] [] [] ENONE [] in
  let w' := snd (frida_loader_on_load os w) in
  (forall w2, rx_stream (w_rx w2) = [x02; x67] -> fst (frida_loader_recv_value w2) = NULL) /\
  fst (frida_loader_on_load os w) = tt /\
  exists a,
    w_heap w !! a = None /\
    w_heap w' = <[a := map Some address]> (w_heap w) /\
    w_trace w' =
      w_trace w ++ on_load_prologue os ++
      [EvThreadCreate (Ptr a) 0; EvThreadDetach true; EvClose 3].
Proof.
  intros os address w w'.
  apply (on_load_resume_failure_tolerated os w x0a address [x02; x67]);
    try reflexivity.
  right. exists x02, [x67]. split; [reflexivity | vm_compute; lia].
Defined.

(** ** C1: the thread cannot be created *)

(** C1, as the code runs.  When the rendezvous address has been received
    and [pthread_create] fails, the handshake does not abort: it detaches
    a thread that was not created, waits for the resume token and drops
    it, and closes the socket; at its return no thread has been started
    and the block of the rendezvous address is still allocated. *)
Theorem on_load_thread_failure_leaks
    (os : env) (w : world) (n : byte) (payload more : list byte) :
  (socket_result os =? -1)%Z = false ->
  (connect_result os =? -1)%Z = false ->
  forallb tx_ok (w_tx w) = true ->
  rx_stream (w_rx w) = n :: payload ++ more ->
  length payload = Byte.to_nat n ->
  (pthread_create_result os =? 0)%Z = false ->
  let w' := snd (frida_loader_on_load os w) in
  exists a,
    w_heap w !! a = None /\
    w_heap w' !! a = Some (map Some payload) /\
    w_trace w' =
      w_trace w ++ on_load_prologue os ++
      [EvThreadCreate (Ptr a) (pthread_create_result os);
       EvThreadDetach false;
       EvClose (socket_result os)] /\
    existsb is_thread_create (w_trace w') = existsb is_thread_create (w_trace w) /\
    forall m token more',
      more = m :: token ++ more' ->
      length token = Byte.to_nat m ->
      rx_stream (w_rx w') = more'.
Proof.
  intros Hsock Hconn Hok Hs Hlen Hfail w'. subst w'.
  destruct (on_load_dispatched os w n payload more Hsock Hconn Hok Hs Hlen)
    as (a & rx' & tx' & wire' & e' & Ha & -> & Hrx).
  exists a. cbn [snd w_trace w_heap w_rx]. rewrite Hfail.
  split; [done|]. split; [by rewrite lookup_insert_eq|]. split; [done|].
  split; [|done].
  rewrite !existsb_app. simpl. rewrite Hfail. simpl. by rewrite orb_false_r.
Qed.

(** The controller sends [pipe://abc] and the resume token [go];
    [pthread_create] answers [EAGAIN] (35). *)
Lemma on_load_thread_failure_leaks_witness :
  let os := Env (list_byte_of_string "/tmp/frida") 1234 3 0 35 (Ptr 77) (Ptr 88) in
  let address := list_byte_of_string "pipe://abc" in
  let w := World ∅ [RxData x0a address; RxData x02 [x67; x6f]] [] [] ENONE [] in
  let w' := snd (frida_loader_on_load os w) in
  exists a,
    w_heap w !! a = None /\
    w_heap w' !! a = Some (map Some address) /\
    w_trace w' =
      w_trace w ++ on_load_prologue os ++
      [EvThreadCreate (Ptr a) 35; EvThreadDetach false; EvClose 3] /\
    existsb is_thread_create (w_trace w') = existsb is_thread_create (w_trace w) /\
    forall m token more',
      [x02; x67; x6f] = m :: token ++ more' ->
      length token = Byte.to_nat m ->
      rx_stream (w_rx w') = more'.
Proof.
  intros os address w w'.
  apply (on_load_thread_failure_leaks os w x0a address [x02; x67; x6f]);
    reflexivity.
Defined.

(** * Further properties *)

(** ** Sending, whatever the kernel answers *)

Lemma tx_run_zero (tx : list tx_event) : tx_run tx 0 = (true, 0, tx).
Proof. by destruct tx. Qed.

Lemma tx_run_bounds (tx : list tx_event) :
  forall n ok k rest,
    tx_run tx n = (ok, k, rest) ->
    k <= n /\ (ok = true -> k = n) /\ (ok = false -> k < n).
Proof.
  induction tx as [|[j|e] tx IH]; intros [|n] ok k rest; simpl;
    try (intros [= <- <- <-]; split; [lia|split; [done|done]]).
  - destruct (tx_run tx (S n - j `min` S n)) as [[ok' k'] rest'] eqn:Hrun.
    intros [= <- <- <-]. apply IH in Hrun as (Hle & Hyes & Hno).
    split; [lia|]. split; intros H; [apply Hyes in H|apply Hno in H]; lia.
  - destruct (errno_eqb e EINTR).
    + apply IH.
    + intros [= <- <- <-]. split; [lia|]. split; [done|lia].
Qed.

Lemma tx_run_nil (n : nat) : tx_run [] n = (true, n, []).
Proof. by destruct n. Qed.

Lemma tx_run_accept (j : nat) (tx : list tx_event) (n : nat) :
  n <> 0 ->
  tx_run (TxAccept j :: tx) n =
    let '(ok, k, rest) := tx_run tx (n - Nat.min j n) in (ok, Nat.min j n + k, rest).
Proof. by destruct n. Qed.

Lemma tx_run_fail (e : errno) (tx : list tx_event) (n : nat) :
  n <> 0 ->
  tx_run (TxFail e :: tx) n =
    if errno_eqb e EINTR then tx_run tx n else (false, 0, tx).
Proof. by destruct n. Qed.

(** The loop of [frida_loader_send_bytes] on any send script. *)
Lemma send_loop_run (fuel : nat) :
  forall (bytes : list byte) (size offset : nat) (w : world) ok k rest,
    length (w_tx w) < fuel ->
    offset <= size ->
    tx_run (w_tx w) (size - offset) = (ok, k, rest) ->
    exists e',
      send_loop fuel bytes size offset w =
        Some (ok, World (w_heap w) (w_rx w) rest
                    (w_wire w ++ take k (drop offset bytes)) e' (w_trace w)).
Proof.
  induction fuel as [|fuel IH]; intros bytes size offset [h rx tx wire e tr] ok k rest;
    simpl; intros Hfuel Hle Hrun; [lia|].
  destruct (offset =? size) eqn:Heq.
  { apply Nat.eqb_eq in Heq. subst offset.
    rewrite Nat.sub_diag, tx_run_zero in Hrun. injection Hrun as <- <- <-.
    exists e. by rewrite take_0, app_nil_r. }
  apply Nat.eqb_neq in Heq.
  destruct tx as [|[j|e1] tx];
    unfold send, set_wire, set_tx, set_errno; simpl in Hfuel |- *.
  - rewrite tx_run_nil in Hrun. injection Hrun as <- <- <-. exists e.
    rewrite of_nat_not_m1, Nat2Z.id. simpl.
    replace (offset + (size - offset)) with size by lia.
    by rewrite send_loop_done.
  - rewrite of_nat_not_m1, Nat2Z.id. simpl.
    rewrite tx_run_accept in Hrun by lia.
    destruct (tx_run tx (size - offset - j `min` (size - offset)))
      as [[ok' k'] rest'] eqn:Hrun'.
    injection Hrun as <- <- <-.
    destruct (IH bytes size (offset + j `min` (size - offset))
                (World h rx tx (wire ++ take (j `min` (size - offset)) (drop offset bytes)) e tr)
                ok' k' rest') as (e' & ->); simpl; [lia|lia| |].
    { rewrite <- Hrun'. f_equal. lia. }
    exists e'. do 3 f_equal.
    rewrite <- app_assoc. f_equal.
    by rewrite <- drop_drop, take_take_drop.
  - rewrite tx_run_fail in Hrun by lia.
    destruct (errno_eqb e1 EINTR) eqn:He; simpl.
    + destruct (IH bytes size offset (World h rx tx wire e1 tr) ok k rest)
        as (e' & ->); simpl; [lia|done|done|].
      by exists e'.
    + injection Hrun as <- <- <-. exists e1. by rewrite take_0, app_nil_r.
Qed.

Lemma frida_loader_send_bytes_run (bytes : list byte) (size : nat) (w : world) ok k rest :
  tx_run (w_tx w) size = (ok, k, rest) ->
  exists e',
    frida_loader_send_bytes bytes size w =
      (ok, World (w_heap w) (w_rx w) rest (w_wire w ++ take k bytes) e' (w_trace w)).
Proof.
  intros Hrun. unfold frida_loader_send_bytes.
  destruct (send_loop_run (S (length (w_tx w))) bytes size 0 w ok k rest)
    as (e' & ->); [lia|lia|by rewrite Nat.sub_0_r|].
  exists e'. by rewrite drop_0.
Qed.

Lemma tx_run_interrupted (pre post : list tx_event) :
  forall n,
    fst (tx_run (pre ++ TxFail EINTR :: post) n) = fst (tx_run (pre ++ post) n).
Proof.
  induction pre as [|[j|e] pre IH]; intros n; simpl app.
  - destruct (decide (n = 0)) as [->|Hn]; [by rewrite !tx_run_zero|].
    by rewrite tx_run_fail.
  - destruct (decide (n = 0)) as [->|Hn]; [by rewrite !tx_run_zero|].
    rewrite !tx_run_accept by done.
    specialize (IH (n - j `min` n)).
    destruct (tx_run (pre ++ TxFail EINTR :: post) _) as [[ok1 k1] r1].
    destruct (tx_run (pre ++ post) _) as [[ok2 k2] r2].
    simpl in *. by injection IH as -> ->.
  - destruct (decide (n = 0)) as [->|Hn]; [by rewrite !tx_run_zero|].
    rewrite !tx_run_fail by done. by destruct (errno_eqb e EINTR).
Qed.

Lemma tx_run_broken (pre post : list tx_event) (e : errno) :
  forallb tx_ok pre = true ->
  errno_eqb e EINTR = false ->
  forall n,
    tx_capacity pre < n ->
    tx_run (pre ++ TxFail e :: post) n = (false, tx_capacity pre, post).
Proof.
  intros Hpre He. induction pre as [|[j|e1] pre IH]; intros n Hn;
    cbn [app]; simpl in Hpre.
  - rewrite tx_run_fail by (intros ->; inversion Hn). by rewrite He.
  - change (tx_capacity (TxAccept j :: pre)) with (j + tx_capacity pre) in *.
    rewrite tx_run_accept by lia.
    rewrite Nat.min_l by lia. rewrite IH by (done || lia). done.
  - change (tx_capacity (TxFail e1 :: pre)) with (tx_capacity pre) in *.
    apply andb_prop in Hpre as [He1 Hpre].
    rewrite tx_run_fail by lia. rewrite He1. by apply IH.
Qed.

(** X1.  Whatever the kernel answers, [frida_loader_send_bytes] puts on
    the wire a prefix of the first [size] bytes of its buffer, in order
    and once each, and it returns true exactly when that prefix is all of
    them; it touches neither the heap nor the bytes to be received. *)
Theorem frida_loader_send_bytes_prefix (bytes : list byte) (size : nat) (w : world) :
  let r := frida_loader_send_bytes bytes size w in
  exists k,
    k <= size /\
    w_wire (snd r) = w_wire w ++ take k bytes /\
    (fst r = true <-> k = size) /\
    w_heap (snd r) = w_heap w /\
    w_rx (snd r) = w_rx w /\
    w_trace (snd r) = w_trace w.
Proof.
  intros r. subst r.
  destruct (tx_run (w_tx w) size) as [[ok k] rest] eqn:Hrun.
  destruct (frida_loader_send_bytes_run bytes size w ok k rest Hrun) as (e' & ->).
  apply tx_run_bounds in Hrun as (Hle & Hyes & Hno).
  exists k. simpl. repeat split; try done.
  intros ->. destruct ok; [done|]. specialize (Hno eq_refl). lia.
Qed.

(** X2.  When no [send] fails for good, [frida_loader_send_bytes]
    returns true and has sent exactly the first [size] bytes of its
    buffer, in whatever pieces the kernel took them. *)
Theorem frida_loader_send_bytes_all (bytes : list byte) (size : nat) (w : world) :
  forallb tx_ok (w_tx w) = true ->
  fst (frida_loader_send_bytes bytes size w) = true /\
  sent (frida_loader_send_bytes bytes size) w = take size bytes.
Proof.
  intros Hok. unfold sent.
  destruct (frida_loader_send_bytes_spec bytes size w Hok) as (tx' & e' & _ & ->).
  simpl. by rewrite drop_app_length.
Qed.

(** Six bytes of seven, taken two, none, and three at a time with an
    interrupted send in between, the kernel taking the last as it comes. *)
Lemma frida_loader_send_bytes_all_witness :
  let bytes := list_byte_of_string "abcdefg" in
  let w := World ∅ [] [TxAccept 2; TxAccept 0; TxFail EINTR; TxAccept 3] [x2a] ENONE [] in
  fst (frida_loader_send_bytes bytes 6 w) = true /\
  sent (frida_loader_send_bytes bytes 6) w = list_byte_of_string "abcdef".
Proof.
  intros bytes w. apply (frida_loader_send_bytes_all bytes 6 w). reflexivity.
Defined.

(** X3.  An interrupted [send] is retried at the same offset: striking
    it from the script changes neither the result of
    [frida_loader_send_bytes] nor the bytes on the wire. *)
Theorem frida_loader_send_bytes_interrupted
    (bytes : list byte) (size : nat) (w : world) (pre post : list tx_event) :
  w_tx w = pre ++ TxFail EINTR :: post ->
  fst (frida_loader_send_bytes bytes size w) =
    fst (frida_loader_send_bytes bytes size (set_tx (pre ++ post) w)) /\
  w_wire (snd (frida_loader_send_bytes bytes size w)) =
    w_wire (snd (frida_loader_send_bytes bytes size (set_tx (pre ++ post) w))).
Proof.
  intros Htx.
  pose proof (tx_run_interrupted pre post size) as Hsame.
  destruct (tx_run (w_tx w) size) as [[ok k] rest] eqn:Hrun.
  destruct (tx_run (pre ++ post) size) as [[ok' k'] rest'] eqn:Hrun'.
  rewrite <- Htx, Hrun in Hsame. simpl in Hsame. injection Hsame as <- <-.
  destruct (frida_loader_send_bytes_run bytes size w ok k rest Hrun) as (e1 & ->).
  destruct (frida_loader_send_bytes_run bytes size (set_tx (pre ++ post) w) ok k rest' Hrun')
    as (e2 & ->).
  done.
Qed.

(** Four bytes, with an interrupted send after the first two. *)
Lemma frida_loader_send_bytes_interrupted_witness :
  let bytes := list_byte_of_string "abcd" in
  let w := World ∅ [] [TxAccept 2; TxFail EINTR; TxAccept 1; TxFail EPIPE] [] ENONE [] in
  fst (frida_loader_send_bytes bytes 4 w) =
    fst (frida_loader_send_bytes bytes 4 (set_tx ([TxAccept 2] ++ [TxAccept 1; TxFail EPIPE]) w)) /\
  w_wire (snd (frida_loader_send_bytes bytes 4 w)) =
    w_wire (snd (frida_loader_send_bytes bytes 4
                   (set_tx ([TxAccept 2] ++ [TxAccept 1; TxFail EPIPE]) w))).
Proof.
  intros bytes w.
  apply (frida_loader_send_bytes_interrupted bytes 4 w [TxAccept 2] [TxAccept 1; TxFail EPIPE]).
  reflexivity.
Defined.

(** X4.  When a [send] fails for good before [size] bytes have been
    taken, [frida_loader_send_bytes] returns false at once: the wire
    holds the bytes taken before the failure and nothing more, and no
    further [send] is made. *)
Theorem frida_loader_send_bytes_broken
    (bytes : list byte) (size : nat) (w : world)
    (pre post : list tx_event) (e : errno) :
  w_tx w = pre ++ TxFail e :: post ->
  forallb tx_ok pre = true ->
  errno_eqb e EINTR = false ->
  tx_capacity pre < size ->
  let r := frida_loader_send_bytes bytes size w in
  fst r = false /\
  w_wire (snd r) = w_wire w ++ take (tx_capacity pre) bytes /\
  w_tx (snd r) = post.
Proof.
  intros Htx Hpre He Hcap r. subst r.
  pose proof (tx_run_broken pre post e Hpre He size Hcap) as Hrun.
  rewrite <- Htx in Hrun.
  by destruct (frida_loader_send_bytes_run bytes size w _ _ _ Hrun) as (e' & ->).
Qed.

(** The connection breaks after three of five bytes. *)
Lemma frida_loader_send_bytes_broken_witness :
  let bytes := list_byte_of_string "abcde" in
  let w := World ∅ [] [TxAccept 1; TxFail EINTR; TxAccept 2; TxFail EPIPE; TxAccept 9]
             [] ENONE [] in
  let r := frida_loader_send_bytes bytes 5 w in
  fst r = false /\
  w_wire (snd r) = list_byte_of_string "abc" /\
  w_tx (snd r) = [TxAccept 9].
Proof.
  intros bytes w r.
  apply (frida_loader_send_bytes_broken bytes 5 w
           [TxAccept 1; TxFail EINTR; TxAccept 2] [TxAccept 9] EPIPE);
    [reflexivity | reflexivity | reflexivity | vm_compute; lia].
Defined.

(** ** The value codec, whatever the kernel answers *)

Lemma frida_loader_send_value_run (v : list byte) (w : world) ok sentb rest :
  send_value_run (w_tx w) v = (ok, sentb, rest) ->
  exists e',
    frida_loader_send_value v w =
      (ok, World (w_heap w) (w_rx w) rest (w_wire w ++ sentb) e' (w_trace w)).
Proof.
  unfold send_value_run, frida_loader_send_value, mbind, M_bind, mret, M_ret.
  destruct (tx_run (w_tx w) 1) as [[ok1 k1] rest1] eqn:Hrun1.
  destruct (frida_loader_send_bytes_run [u8 (strlen v)] 1 w ok1 k1 rest1 Hrun1)
    as (e1 & ->).
  apply tx_run_bounds in Hrun1 as (Hle & Hyes & Hno).
  destruct ok1; simpl.
  - rewrite Hyes by done. simpl.
    destruct (tx_run rest1 (Byte.to_nat (u8 (strlen v)))) as [[ok2 k2] rest2] eqn:Hrun2.
    intros [= <- <- <-].
    destruct (frida_loader_send_bytes_run v (Byte.to_nat (u8 (strlen v)))
                (World (w_heap w) (w_rx w) rest1 (w_wire w ++ [u8 (strlen v)]) e1 (w_trace w))
                ok2 k2 rest2 Hrun2) as (e2 & ->).
    exists e2. simpl. by rewrite <- app_assoc.
  - intros [= <- <- <-]. exists e1.
    replace k1 with 0 by (specialize (Hno eq_refl); lia). done.
Qed.

Lemma send_value_run_prefix (tx : list tx_event) (v : list byte) ok sentb rest :
  send_value_run tx v = (ok, sentb, rest) ->
  exists k,
    k <= length (frame v) /\
    sentb = take k (frame v) /\
    (ok = true <-> k = length (frame v)).
Proof.
  unfold send_value_run, frame.
  pose proof (strlen_le v) as Hv.
  pose proof (Nat.Div0.mod_le (strlen v) 256) as Hmod.
  assert (Hframe : length (u8 (strlen v) :: take (strlen v mod 256) v)
                   = S (strlen v mod 256)).
  { cbn [length]. rewrite length_take. lia. }
  rewrite Hframe.
  destruct (tx_run tx 1) as [[ok1 k1] rest1]. destruct ok1; cbn [negb].
  - rewrite u8_to_nat.
    destruct (tx_run rest1 (strlen v mod 256)) as [[ok2 k2] rest2] eqn:Hrun2.
    apply tx_run_bounds in Hrun2 as (Hle & Hyes & Hno).
    intros [= <- <- <-]. exists (S k2). split; [lia|]. split.
    + cbn [firstn]. by rewrite take_take, Nat.min_l.
    + split; [intros H; apply Hyes in H; lia|].
      intros Heq. apply Nat.succ_inj in Heq.
      destruct ok2; [done|]. specialize (Hno eq_refl). lia.
  - intros [= <- <- <-]. exists 0. split; [lia|]. split; [done|]. split; [done|lia].
Qed.

Lemma nul_free_take (v : list byte) :
  forall n, n <= strlen v -> nul_free (take n v) = true.
Proof.
  induction v as [|b v IH]; intros [|n]; simpl; try done.
  destruct (Byte.eqb b x00) eqn:E; simpl; [lia|].
  intros Hn. rewrite IH by lia. done.
Qed.

(** X5.  Whatever the kernel answers, [frida_loader_send_value] puts on
    the wire a prefix of the frame of its string (the length byte, then
    the payload) and returns true exactly when the whole frame is there;
    it touches neither the heap nor the bytes to be received. *)
Theorem frida_loader_send_value_prefix (v : list byte) (w : world) :
  let r := frida_loader_send_value v w in
  exists k,
    k <= length (frame v) /\
    w_wire (snd r) = w_wire w ++ take k (frame v) /\
    (fst r = true <-> k = length (frame v)) /\
    w_heap (snd r) = w_heap w /\
    w_rx (snd r) = w_rx w /\
    w_trace (snd r) = w_trace w.
Proof.
  intros r. subst r.
  destruct (send_value_run (w_tx w) v) as [[ok sentb] rest] eqn:Hrun.
  destruct (frida_loader_send_value_run v w ok sentb rest Hrun) as (e' & ->).
  apply send_value_run_prefix in Hrun as (k & Hle & -> & Hiff).
  exists k. by simpl.
Qed.

(** X6.  When the length byte cannot be sent, [frida_loader_send_value]
    returns false without sending any byte of the string. *)
Theorem frida_loader_send_value_no_length
    (v : list byte) (w : world) (pre post : list tx_event) (e : errno) :
  w_tx w = pre ++ TxFail e :: post ->
  forallb tx_ok pre = true ->
  errno_eqb e EINTR = false ->
  tx_capacity pre = 0 ->
  let r := frida_loader_send_value v w in
  fst r = false /\
  w_wire (snd r) = w_wire w /\
  w_tx (snd r) = post.
Proof.
  intros Htx Hpre He Hcap r. subst r.
  assert (Hrun : send_value_run (w_tx w) v = (false, [], post)).
  { unfold send_value_run. rewrite Htx, tx_run_broken by (done || lia). done. }
  destruct (frida_loader_send_value_run v w _ _ _ Hrun) as (e' & ->).
  simpl. by rewrite app_nil_r.
Qed.

(** The first send is interrupted, the second takes nothing, the third
    finds the pipe broken. *)
Lemma frida_loader_send_value_no_length_witness :
  let v := list_byte_of_string "1234" ++ [x00] in
  let w := World ∅ [] [TxFail EINTR; TxAccept 0; TxFail EPIPE; TxAccept 5] [x2a] ENONE [] in
  let r := frida_loader_send_value v w in
  fst r = false /\
  w_wire (snd r) = [x2a] /\
  w_tx (snd r) = [TxAccept 5].
Proof.
  intros v w r.
  apply (frida_loader_send_value_no_length v w [TxFail EINTR; TxAccept 0] [TxAccept 5] EPIPE);
    reflexivity.
Defined.

(** X7.  Every frame that [frida_loader_send_value] sends whole is
    well formed: the length byte counts the payload bytes that follow,
    also for a string longer than 255 bytes, and no payload byte is
    zero.  [frida_loader_recv_value], reading a stream that starts with
    the frame, succeeds and leaves exactly what follows the frame. *)
Theorem frida_loader_send_value_frame (v : list byte) (w : world) :
  forallb tx_ok (w_tx w) = true ->
  let payload := take (strlen v mod 256) v in
  sent (frida_loader_send_value v) w = u8 (strlen v) :: payload /\
  length payload = Byte.to_nat (u8 (strlen v)) /\
  nul_free payload = true /\
  forall wr more,
    rx_stream (w_rx wr) = sent (frida_loader_send_value v) w ++ more ->
    exists a,
      fst (frida_loader_recv_value wr) = Ptr a /\
      load (Ptr a) (snd (frida_loader_recv_value wr)) = map Some payload /\
      rx_stream (w_rx (snd (frida_loader_recv_value wr))) = more.
Proof.
  intros Hok payload.
  destruct (frida_loader_send_value_sent v w Hok) as [_ Hsent].
  pose proof (strlen_le v) as Hv.
  pose proof (Nat.Div0.mod_le (strlen v) 256) as Hmod.
  assert (Hlen : length payload = Byte.to_nat (u8 (strlen v))).
  { subst payload. rewrite u8_to_nat, length_take. lia. }
  split; [done|]. split; [done|]. split; [by apply nul_free_take|].
  intros wr more Hrx. rewrite Hsent in Hrx.
  destruct (frida_loader_recv_value_spec wr) as (p & h' & rx' & e' & -> & H).
  rewrite Hrx in H. cbn [app] in H. fold payload in H.
  rewrite decide_True in H by (rewrite length_app; lia).
  destruct H as (-> & -> & Hrx').
  exists (fresh (dom (w_heap wr))). simpl.
  rewrite lookup_insert_eq. simpl.
  rewrite <- Hlen, take_app_length, drop_app_length in *. done.
Qed.

(** A string of 258 bytes: the frame announces two bytes and carries
    two, and the stream stays in step. *)
Lemma frida_loader_send_value_frame_witness :
  let v := repeat x61 258 ++ [x00] in
  let w := World ∅ [] [TxAccept 2] [] ENONE [] in
  let wr := World ∅ [RxData x02 [x61]; RxData x61 [x07; x08]] [] [] ENONE [] in
  sent (frida_loader_send_value v) w = [x02; x61; x61] /\
  exists a,
    fst (frida_loader_recv_value wr) = Ptr a /\
    load (Ptr a) (snd (frida_loader_recv_value wr)) = [Some x61; Some x61] /\
    rx_stream (w_rx (snd (frida_loader_recv_value wr))) = [x07; x08].
Proof.
  intros v w wr.
  destruct (frida_loader_send_value_frame v w eq_refl) as (Hsent & _ & _ & Hrecv).
  split; [rewrite Hsent; vm_compute; reflexivity|].
  apply (Hrecv wr [x07; x08]). rewrite Hsent. vm_compute. reflexivity.
Defined.

(** ** Sending the process identifier *)

Lemma frida_loader_send_run (value : Z) (w : world) ok sentb rest :
  send_value_run (w_tx w) (render_decimal value ++ [x00]) = (ok, sentb, rest) ->
  exists e',
    frida_loader_send value w =
      (ok, World (w_heap w) (w_rx w) rest (w_wire w ++ sentb) e' (w_trace w)).
Proof.
  intros Hrun.
  unfold frida_loader_send, asprintf, alloc, mbind, M_bind, mret, M_ret.
  set (a := fresh (dom (w_heap w))).
  set (w1 := set_heap _ w).
  assert (Htext : defined_prefix (load (Ptr a) w1) = render_decimal value ++ [x00]).
  { subst w1. unfold load, set_heap. cbn [w_heap].
    rewrite lookup_insert_eq. apply defined_prefix_map. }
  rewrite Htext.
  destruct (frida_loader_send_value_run (render_decimal value ++ [x00]) w1 ok sentb rest)
    as (e' & ->); [done|].
  subst w1. unfold free, modify, set_heap. simpl.
  rewrite delete_insert_id by apply fresh_heap. by exists e'.
Qed.

Lemma string_of_uint_nul_free (d : Decimal.uint) :
  nul_free (list_byte_of_string (NilEmpty.string_of_uint d)) = true.
Proof. induction d; simpl; done. Qed.

Lemma render_decimal_nul_free (value : Z) : nul_free (render_decimal value) = true.
Proof.
  unfold render_decimal, NilZero.string_of_int, NilZero.string_of_uint.
  destruct (Z.to_int value) as [d|d]; destruct d;
    first [done | apply string_of_uint_nul_free
          | apply (string_of_uint_nul_free (Decimal.D0 _))
          | apply (string_of_uint_nul_free (Decimal.D1 _))
          | apply (string_of_uint_nul_free (Decimal.D2 _))
          | apply (string_of_uint_nul_free (Decimal.D3 _))
          | apply (string_of_uint_nul_free (Decimal.D4 _))
          | apply (string_of_uint_nul_free (Decimal.D5 _))
          | apply (string_of_uint_nul_free (Decimal.D6 _))
          | apply (string_of_uint_nul_free (Decimal.D7 _))
          | apply (string_of_uint_nul_free (Decimal.D8 _))
          | apply (string_of_uint_nul_free (Decimal.D9 _))].
Qed.

(** X8.  On every path [frida_loader_send] frees the string it has
    rendered: the heap after the call is the heap before it, whether the
    send succeeds or fails.  What it has sent is a prefix of the frame of
    the decimal text, whole exactly when it returns true. *)
Theorem frida_loader_send_frees (value : Z) (w : world) :
  let r := frida_loader_send value w in
  w_heap (snd r) = w_heap w /\
  w_rx (snd r) = w_rx w /\
  w_trace (snd r) = w_trace w /\
  exists k,
    w_wire (snd r) = w_wire w ++ take k (frame (render_decimal value ++ [x00])) /\
    (fst r = true <-> k = length (frame (render_decimal value ++ [x00]))).
Proof.
  intros r. subst r.
  destruct (send_value_run (w_tx w) (render_decimal value ++ [x00]))
    as [[ok sentb] rest] eqn:Hrun.
  destruct (frida_loader_send_run value w ok sentb rest Hrun) as (e' & ->).
  apply send_value_run_prefix in Hrun as (k & Hle & -> & Hiff).
  simpl. repeat split; try done. by exists k.
Qed.

(** X9.  When no [send] fails for good, [frida_loader_send] returns true
    and has sent the number of characters of the decimal text of its
    argument, as one byte, and then those characters, without the
    terminating zero. *)
Theorem frida_loader_send_decimal (value : Z) (w : world) :
  forallb tx_ok (w_tx w) = true ->
  length (render_decimal value) <= 255 ->
  fst (frida_loader_send value w) = true /\
  sent (frida_loader_send value) w =
    u8 (length (render_decimal value)) :: render_decimal value.
Proof.
  intros Hok Hlen. unfold sent.
  destruct (frida_loader_send_value_sent (render_decimal value ++ [x00]) w Hok)
    as [Htrue Hsent].
  destruct (send_value_run (w_tx w) (render_decimal value ++ [x00]))
    as [[ok sentb] rest] eqn:Hrun.
  destruct (frida_loader_send_value_run _ w ok sentb rest Hrun) as (e1 & Heq1).
  destruct (frida_loader_send_run value w ok sentb rest Hrun) as (e2 & ->).
  unfold sent in Hsent. rewrite Heq1 in Htrue, Hsent.
  cbn [fst snd w_wire] in *.
  rewrite drop_app_length in *. subst ok sentb.
  rewrite strlen_nul_free by apply render_decimal_nul_free.
  rewrite Nat.mod_small, take_app_length by lia. done.
Qed.

(** The process identifiers 1234 and 0, and a negative number. *)
Lemma frida_loader_send_decimal_witness :
  let w := World ∅ [] [TxAccept 1; TxFail EINTR; TxAccept 2] [] ENONE [] in
  sent (frida_loader_send 1234) w = x04 :: list_byte_of_string "1234" /\
  sent (frida_loader_send 0) w = x01 :: list_byte_of_string "0" /\
  sent (frida_loader_send (-17)) w = x03 :: list_byte_of_string "-17".
Proof.
  intros w. split; [|split].
  - apply (proj2 (frida_loader_send_decimal 1234 w eq_refl ltac:(vm_compute; lia))).
  - apply (proj2 (frida_loader_send_decimal 0 w eq_refl ltac:(vm_compute; lia))).
  - apply (proj2 (frida_loader_send_decimal (-17) w eq_refl ltac:(vm_compute; lia))).
Defined.

(** ** Receiving, in sequence *)

(** X10.  A successful [frida_loader_recv_bytes] takes exactly [size]
    bytes from the connection: the bytes that follow stay to be received,
    the buffer past [size] is as it was, and nothing is allocated, sent
    or logged. *)
Theorem frida_loader_recv_bytes_no_overread (bytes : list cell) (size : nat) (w : world) :
  size <= length bytes ->
  size <= length (rx_stream (w_rx w)) ->
  let r := frida_loader_recv_bytes bytes size w in
  fst (fst r) = true /\
  take size (snd (fst r)) = map Some (take size (rx_stream (w_rx w))) /\
  drop size (snd (fst r)) = drop size bytes /\
  rx_stream (w_rx (snd r)) = drop size (rx_stream (w_rx w)) /\
  w_heap (snd r) = w_heap w /\
  w_wire (snd r) = w_wire w /\
  w_trace (snd r) = w_trace w.
Proof.
  intros Hcap Hlen r. subst r.
  destruct (frida_loader_recv_bytes_spec bytes size w Hcap)
    as (ok & bytes' & rx' & e' & -> & Hyes & _).
  destruct (Hyes Hlen) as (-> & -> & Hrx). simpl.
  assert (Hdata : length (map Some (take size (rx_stream (w_rx w)))) = size).
  { rewrite length_map, length_take. lia. }
  unfold write. simpl. rewrite length_take, Nat.min_l by done.
  split; [done|]. split; [by rewrite take_app_length'|].
  split; [by rewrite drop_app_length'|]. done.
Qed.

(** Two bytes are asked into a buffer of three cells from a peer that has
    sent four. *)
Lemma frida_loader_recv_bytes_no_overread_witness :
  let bytes := [Some x11; None; Some x33] in
  let w := World ∅ [RxData x61 [x62; x63]; RxFail EINTR; RxData x64 []] [] [] ENONE [] in
  let r := frida_loader_recv_bytes bytes 2 w in
  fst r = (true, [Some x61; Some x62; Some x33]) /\
  rx_stream (w_rx (snd r)) = [x63; x64].
Proof.
  intros bytes w r.
  destruct (frida_loader_recv_bytes_no_overread bytes 2 w) as (H1 & H2 & H3 & H4 & _);
    [vm_compute; lia | vm_compute; lia |].
  split; [reflexivity | exact H4].
Defined.

(** X11.  Two values that arrive one after the other are received by two
    calls of [frida_loader_recv_value], in order: each call takes its own
    frame and no more, the two blocks are distinct and both live, and
    what follows the second frame stays to be received. *)
Theorem frida_loader_recv_value_twice
    (w : world) (n1 n2 : byte) (p1 p2 more : list byte) :
  rx_stream (w_rx w) = n1 :: p1 ++ n2 :: p2 ++ more ->
  length p1 = Byte.to_nat n1 ->
  length p2 = Byte.to_nat n2 ->
  let r1 := frida_loader_recv_value w in
  let r2 := frida_loader_recv_value (snd r1) in
  exists a1 a2,
    fst r1 = Ptr a1 /\
    fst r2 = Ptr a2 /\
    a1 <> a2 /\
    w_heap (snd r2) = <[a2 := map Some p2]> (<[a1 := map Some p1]> (w_heap w)) /\
    load (Ptr a1) (snd r2) = map Some p1 /\
    load (Ptr a2) (snd r2) = map Some p2 /\
    rx_stream (w_rx (snd r2)) = more.
Proof.
  intros Hs Hlen1 Hlen2 r1 r2. subst r1 r2.
  destruct (frida_loader_recv_value_spec w) as (q1 & h1 & rx1 & e1 & -> & H1).
  rewrite Hs in H1. rewrite decide_True in H1 by (rewrite length_app; lia).
  destruct H1 as (-> & -> & Hrx1).
  rewrite <- Hlen1, take_app_length, drop_app_length in *.
  cbn [snd].
  match goal with |- context [frida_loader_recv_value ?w1] =>
    destruct (frida_loader_recv_value_spec w1) as (q2 & h2 & rx2 & e2 & -> & H2)
  end.
  cbn [w_heap w_rx] in H2. rewrite Hrx1 in H2.
  rewrite decide_True in H2 by (rewrite length_app; lia).
  destruct H2 as (-> & -> & Hrx2).
  rewrite <- Hlen2, take_app_length, drop_app_length in *.
  set (a1 := fresh (dom (w_heap w))).
  set (a2 := fresh (dom (<[a1 := map Some p1]> (w_heap w)))).
  assert (Hfresh : (<[a1 := map Some p1]> (w_heap w)) !! a2 = None) by apply fresh_heap.
  assert (Hne : a1 <> a2).
  { intros Heq. rewrite <- Heq in Hfresh. by rewrite lookup_insert_eq in Hfresh. }
  exists a1, a2. cbn [fst snd w_heap w_rx load].
  rewrite lookup_insert_ne, !lookup_insert_eq by done. done.
Qed.

(** The address [pipe://abc] and the token [go], in three fragments. *)
Lemma frida_loader_recv_value_twice_witness :
  let address := list_byte_of_string "pipe://abc" in
  let token := list_byte_of_string "go" in
  let w := World ∅ [RxData x0a (take 4 address);
                    RxData x3a (drop 5 address ++ [x02; x67]);
                    RxData x6f [x21]] [] [] ENONE [] in
  let r1 := frida_loader_recv_value w in
  let r2 := frida_loader_recv_value (snd r1) in
  exists a1 a2,
    fst r1 = Ptr a1 /\
    fst r2 = Ptr a2 /\
    a1 <> a2 /\
    w_heap (snd r2) = <[a2 := map Some token]> (<[a1 := map Some address]> (w_heap w)) /\
    load (Ptr a1) (snd r2) = map Some address /\
    load (Ptr a2) (snd r2) = map Some token /\
    rx_stream (w_rx (snd r2)) = [x21].
Proof.
  intros address token w r1 r2.
  apply (frida_loader_recv_value_twice w x0a x02 address token [x21]); reflexivity.
Defined.

(** ** The handshake, path by path *)

Lemma on_load_socket_failed (os : env) (w : world) :
  (socket_result os =? -1)%Z = true ->
  frida_loader_on_load os w =
    (tt, World (w_heap w) (w_rx w) (w_tx w) (w_wire w) (w_errno w)
           (w_trace w ++ [EvLog "frida_loader_on_load"; EvSocket (socket_result os)])).
Proof.
  intros Hsock.
  unfold frida_loader_on_load, frida_log, asprintf, alloc, socket,
    mbind, M_bind, mret, M_ret, modify.
  world_simpl. rewrite Hsock.
  unfold on_load_beach, free, modify, mbind, M_bind, mret, M_ret.
  rewrite Hsock. world_simpl.
  rewrite delete_insert_id by apply fresh_heap.
  by rewrite <- app_assoc.
Qed.

Lemma on_load_connect_failed (os : env) (w : world) :
  (socket_result os =? -1)%Z = false ->
  (connect_result os =? -1)%Z = true ->
  frida_loader_on_load os w =
    (tt, World (w_heap w) (w_rx w) (w_tx w) (w_wire w) (w_errno w)
           (w_trace w ++ on_load_prologue os ++ [EvClose (socket_result os)])).
Proof.
  intros Hsock Hconn.
  unfold frida_loader_on_load, frida_log, asprintf, alloc, socket, connect,
    mbind, M_bind, mret, M_ret, modify.
  world_simpl. rewrite Hsock, Hconn.
  unfold on_load_beach, close, free, modify, mbind, M_bind, mret, M_ret.
  rewrite Hsock. world_simpl.
  rewrite delete_insert_id by apply fresh_heap.
  rewrite lookup_insert_eq. world_simpl. rewrite defined_prefix_map.
  unfold on_load_prologue, callback_sun_path. by rewrite <- !app_assoc.
Qed.

Lemma on_load_send_failed (os : env) (w : world) (sentb : list byte) (rest : list tx_event) :
  (socket_result os =? -1)%Z = false ->
  (connect_result os =? -1)%Z = false ->
  send_value_run (w_tx w) (render_decimal (getpid os) ++ [x00]) = (false, sentb, rest) ->
  exists e',
    frida_loader_on_load os w =
      (tt, World (w_heap w) (w_rx w) rest (w_wire w ++ sentb) e'
             (w_trace w ++ on_load_prologue os ++ [EvClose (socket_result os)])).
Proof.
  intros Hsock Hconn Hrun.
  unfold frida_loader_on_load, frida_log, asprintf, alloc, socket, connect,
    mbind, M_bind, mret, M_ret, modify.
  world_simpl. rewrite Hsock, Hconn.
  match goal with |- context [frida_loader_send _ ?w1] =>
    destruct (frida_loader_send_run (getpid os) w1 false sentb rest Hrun) as (e' & ->)
  end.
  world_simpl.
  unfold on_load_beach, close, free, modify, mbind, M_bind, mret, M_ret.
  rewrite Hsock. world_simpl.
  rewrite delete_insert_id by apply fresh_heap.
  rewrite lookup_insert_eq. world_simpl. rewrite defined_prefix_map.
  exists e'. unfold on_load_prologue, callback_sun_path. by rewrite <- !app_assoc.
Qed.

Lemma on_load_not_received (os : env) (w : world) (sentb : list byte) (rest : list tx_event) :
  (socket_result os =? -1)%Z = false ->
  (connect_result os =? -1)%Z = false ->
  send_value_run (w_tx w) (render_decimal (getpid os) ++ [x00]) = (true, sentb, rest) ->
  rx_stream (w_rx w) = [] \/
  (exists n rest, rx_stream (w_rx w) = n :: rest /\ length rest < Byte.to_nat n) ->
  exists rx' e',
    frida_loader_on_load os w =
      (tt, World (w_heap w) rx' rest (w_wire w ++ sentb) e'
             (w_trace w ++ on_load_prologue os ++ [EvClose (socket_result os)])).
Proof.
  intros Hsock Hconn Hrun Hfail.
  unfold frida_loader_on_load, frida_log, asprintf, alloc, socket, connect,
    mbind, M_bind, mret, M_ret, modify.
  world_simpl. rewrite Hsock, Hconn.
  match goal with |- context [frida_loader_send _ ?w1] =>
    destruct (frida_loader_send_run (getpid os) w1 true sentb rest Hrun) as (e' & ->)
  end.
  world_simpl.
  match goal with |- context [frida_loader_recv_value ?w2] =>
    destruct (frida_loader_recv_value_failure_or w2 Hfail) as (rx2 & e2 & ->)
  end.
  world_simpl.
  unfold on_load_beach, close, free, modify, mbind, M_bind, mret, M_ret.
  rewrite Hsock. world_simpl.
  rewrite delete_insert_id by apply fresh_heap.
  rewrite lookup_insert_eq. world_simpl. rewrite defined_prefix_map.
  exists rx2, e2. unfold on_load_prologue, callback_sun_path. by rewrite <- !app_assoc.
Qed.

Lemma on_load_received
    (os : env) (w : world) (sentb : list byte) (rest : list tx_event)
    (n : byte) (payload more : list byte) :
  (socket_result os =? -1)%Z = false ->
  (connect_result os =? -1)%Z = false ->
  send_value_run (w_tx w) (render_decimal (getpid os) ++ [x00]) = (true, sentb, rest) ->
  rx_stream (w_rx w) = n :: payload ++ more ->
  length payload = Byte.to_nat n ->
  exists a rx' e',
    w_heap w !! a = None /\
    frida_loader_on_load os w =
      (tt, World (<[a := map Some payload]> (w_heap w)) rx' rest (w_wire w ++ sentb) e'
             (w_trace w ++ on_load_prologue os ++
              [EvThreadCreate (Ptr a) (pthread_create_result os);
               EvThreadDetach (pthread_create_result os =? 0)%Z;
               EvClose (socket_result os)])) /\
    forall m token more',
      more = m :: token ++ more' ->
      length token = Byte.to_nat m ->
      rx_stream rx' = more'.
Proof.
  intros Hsock Hconn Hrun Hs Hlen.
  unfold frida_loader_on_load, frida_log, asprintf, alloc, socket, connect,
    pthread_create, pthread_detach, mbind, M_bind, mret, M_ret, modify.
  set (a0 := fresh (dom (w_heap w))).
  set (cb := map Some _).
  world_simpl. rewrite Hsock, Hconn.
  match goal with |- context [frida_loader_send _ ?w1] =>
    destruct (frida_loader_send_run (getpid os) w1 true sentb rest Hrun) as (e' & ->)
  end.
  world_simpl.
  set (a := fresh (dom (<[a0 := cb]> (w_heap w)))).
  assert (Hfresh : (<[a0 := cb]> (w_heap w)) !! a = None) by apply fresh_heap.
  assert (Hne : a0 <> a).
  { intros Heq. rewrite <- Heq in Hfresh. by rewrite lookup_insert_eq in Hfresh. }
  match goal with |- context [frida_loader_recv_value ?w2] =>
    destruct (frida_loader_recv_value_spec w2) as (p & h' & rx1 & e1 & -> & Hspec)
  end.
  world_simpl. rewrite Hs in Hspec.
  rewrite decide_True in Hspec by (rewrite length_app; lia).
  fold a in Hspec. destruct Hspec as (-> & -> & Hrx1).
  rewrite <- Hlen, drop_app_length, take_app_length in *.
  world_simpl.
  match goal with |- context [frida_loader_recv_value ?w3] =>
    destruct (frida_loader_recv_value_free w3)
      as (p2 & w4 & rx2 & e2 & -> & Hfree & Hrx2)
  end.
  rewrite Hfree. world_simpl. rewrite Hrx1 in Hrx2.
  unfold on_load_beach, close, free, modify, mbind, M_bind, mret, M_ret.
  rewrite Hsock. world_simpl.
  rewrite delete_insert_ne, delete_insert_id by (done || apply fresh_heap).
  rewrite lookup_insert_eq. world_simpl. subst cb.
  rewrite defined_prefix_map. world_simpl.
  exists a, rx2, e2. split.
  { by rewrite lookup_insert_ne in Hfresh. }
  split; [|done].
  unfold on_load_prologue, callback_sun_path. subst a a0.
  rewrite <- !app_assoc. reflexivity.
Qed.

Lemma new_events_app (w w' : world) (evs : list event) :
  w_trace w' = w_trace w ++ evs -> new_events w w' = evs.
Proof. intros H. unfold new_events. by rewrite H, drop_app_length. Qed.

(** X12.  When [socket] fails the handshake stops there: it connects,
    sends and receives nothing, closes nothing, and frees the path it
    had built. *)
Theorem on_load_without_socket (os : env) (w : world) :
  (socket_result os =? -1)%Z = true ->
  let w' := snd (frida_loader_on_load os w) in
  new_events w w' = [EvLog "frida_loader_on_load"; EvSocket (socket_result os)] /\
  w_heap w' = w_heap w /\
  w_wire w' = w_wire w /\
  w_rx w' = w_rx w /\
  w_tx w' = w_tx w.
Proof.
  intros Hsock w'. subst w'. rewrite on_load_socket_failed by done.
  split; [by apply new_events_app|done].
Qed.

(** No descriptor is to be had. *)
Lemma on_load_without_socket_witness :
  let os := Env (list_byte_of_string "/tmp/frida") 1234 (-1) 0 0 (Ptr 77) (Ptr 88) in
  let w := World {[ 4 := [Some x2a] ]} [RxData x01 [x61]] [TxAccept 1] [] ENONE [] in
  let w' := snd (frida_loader_on_load os w) in
  new_events w w' = [EvLog "frida_loader_on_load"; EvSocket (-1)] /\
  w_heap w' = w_heap w /\
  w_wire w' = w_wire w /\
  w_rx w' = w_rx w /\
  w_tx w' = w_tx w.
Proof.
  intros os w w'. apply (on_load_without_socket os w). reflexivity.
Defined.

(** X13.  For a data directory whose socket path fits [sun_path]: when
    [connect] fails the handshake closes the socket and returns: nothing
    is sent, nothing is received, no thread is created, and the heap is
    as it was. *)
Theorem on_load_without_connection (os : env) (w : world) :
  sun_path_fits os = true ->
  (socket_result os =? -1)%Z = false ->
  (connect_result os =? -1)%Z = true ->
  let w' := snd (frida_loader_on_load os w) in
  new_events w w' = on_load_prologue os ++ [EvClose (socket_result os)] /\
  w_heap w' = w_heap w /\
  w_wire w' = w_wire w /\
  w_rx w' = w_rx w /\
  w_tx w' = w_tx w.
Proof.
  intros Hfits Hsock Hconn w'. subst w'. rewrite on_load_connect_failed by done.
  split; [by apply new_events_app|done].
Qed.

(** Nobody listens on the path. *)
Lemma on_load_without_connection_witness :
  let os := Env (list_byte_of_string "/tmp/frida") 1234 3 (-1) 0 (Ptr 77) (Ptr 88) in
  let w := World {[ 4 := [Some x2a] ]} [RxData x01 [x61]] [TxAccept 1] [] ENONE [] in
  let w' := snd (frida_loader_on_load os w) in
  new_events w w' =
    [EvLog "frida_loader_on_load"; EvSocket 3;
     EvConnect 3 (list_byte_of_string "/tmp/frida/callback") (-1); EvClose 3] /\
  w_heap w' = w_heap w /\
  w_wire w' = w_wire w /\
  w_rx w' = w_rx w /\
  w_tx w' = w_tx w.
Proof.
  intros os w w'. apply (on_load_without_connection os w); reflexivity.
Defined.

(** X14.  For a data directory whose socket path fits [sun_path]: when
    the process identifier cannot be sent the handshake closes the socket
    and returns without receiving anything: the bytes of the peer stay
    unread, no thread is created, and the heap is as it was. *)
Theorem on_load_without_announcement (os : env) (w : world) :
  sun_path_fits os = true ->
  (socket_result os =? -1)%Z = false ->
  (connect_result os =? -1)%Z = false ->
  fst (frida_loader_send (getpid os) w) = false ->
  let w' := snd (frida_loader_on_load os w) in
  new_events w w' = on_load_prologue os ++ [EvClose (socket_result os)] /\
  w_heap w' = w_heap w /\
  w_rx w' = w_rx w /\
  w_wire w' = w_wire (snd (frida_loader_send (getpid os) w)).
Proof.
  intros Hfits Hsock Hconn Hsend w'. subst w'.
  destruct (send_value_run (w_tx w) (render_decimal (getpid os) ++ [x00]))
    as [[ok sentb] rest] eqn:Hrun.
  destruct (frida_loader_send_run (getpid os) w ok sentb rest Hrun) as (e1 & Heq).
  rewrite Heq in *. cbn [fst snd w_wire] in *. subst ok.
  destruct (on_load_send_failed os w sentb rest Hsock Hconn Hrun) as (e' & ->).
  split; [by apply new_events_app|done].
Qed.

(** The pipe breaks after the length byte of the identifier. *)
Lemma on_load_without_announcement_witness :
  let os := Env (list_byte_of_string "/tmp/frida") 1234 3 0 0 (Ptr 77) (Ptr 88) in
  let w := World ∅ [RxData x01 [x61]] [TxAccept 1; TxAccept 2; TxFail EPIPE] [] ENONE [] in
  let w' := snd (frida_loader_on_load os w) in
  new_events w w' = on_load_prologue os ++ [EvClose 3] /\
  w_heap w' = w_heap w /\
  w_rx w' = w_rx w /\
  w_wire w' = [x04; x31; x32].
Proof.
  intros os w w'. apply (on_load_without_announcement os w); reflexivity.
Defined.

(** X15.  For a data directory whose socket path fits [sun_path]: when
    the identifier is sent, the rendezvous address and the resume token
    arrive and the thread is created, the handshake has sent nothing but
    the identifier, has passed the block of the address to
    [pthread_create], has read the token and freed it, and has closed the
    socket; what the peer sent after the token stays unread.  Of the
    blocks the handshake itself allocated none is left but the one of the
    address, which is the thread's to free. *)
Theorem on_load_handshake_complete
    (os : env) (w : world) (n m : byte) (address token more : list byte) :
  sun_path_fits os = true ->
  (socket_result os =? -1)%Z = false ->
  (connect_result os =? -1)%Z = false ->
  fst (frida_loader_send (getpid os) w) = true ->
  rx_stream (w_rx w) = n :: address ++ m :: token ++ more ->
  length address = Byte.to_nat n ->
  length token = Byte.to_nat m ->
  (pthread_create_result os =? 0)%Z = true ->
  let w' := snd (frida_loader_on_load os w) in
  exists a,
    w_heap w !! a = None /\
    w_heap w' = <[a := map Some address]> (w_heap w) /\
    new_events w w' =
      on_load_prologue os ++
      [EvThreadCreate (Ptr a) 0; EvThreadDetach true; EvClose (socket_result os)] /\
    rx_stream (w_rx w') = more /\
    w_wire w' = w_wire (snd (frida_loader_send (getpid os) w)).
Proof.
  intros Hfits Hsock Hconn Hsend Hs Hlen1 Hlen2 Hthread w'. subst w'.
  destruct (send_value_run (w_tx w) (render_decimal (getpid os) ++ [x00]))
    as [[ok sentb] rest] eqn:Hrun.
  destruct (frida_loader_send_run (getpid os) w ok sentb rest Hrun) as (e1 & Heq).
  rewrite Heq in *. cbn [fst snd w_wire] in *. subst ok.
  destruct (on_load_received os w sentb rest n address (m :: token ++ more)
              Hsock Hconn Hrun Hs Hlen1)
    as (a & rx' & e' & Ha & -> & Hrx).
  exists a. cbn [snd w_heap w_rx w_wire].
  apply Z.eqb_eq in Hthread. rewrite Hthread in *.
  split; [done|]. split; [done|]. split; [by apply new_events_app|].
  split; [by apply (Hrx m token more)|done].
Qed.

(** The controller answers the identifier 1234 with the address
    [pipe://abc] and the token [go]. *)
Lemma on_load_handshake_complete_witness :
  let os := Env (list_byte_of_string "/tmp/frida") 1234 3 0 0 (Ptr 77) (Ptr 88) in
  let address := list_byte_of_string "pipe://abc" in
  let token := list_byte_of_string "go" in
  let w := World ∅ [RxData x0a address; RxFail EINTR; RxData x02 token] [] [] ENONE [] in
  let w' := snd (frida_loader_on_load os w) in
  exists a,
    w_heap w !! a = None /\
    w_heap w' = <[a := map Some address]> (w_heap w) /\
    new_events w w' =
      on_load_prologue os ++
      [EvThreadCreate (Ptr a) 0; EvThreadDetach true; EvClose 3] /\
    rx_stream (w_rx w') = [] /\
    w_wire w' = x04 :: list_byte_of_string "1234".
Proof.
  intros os address token w w'.
  apply (on_load_handshake_complete os w x0a x02 address token []); reflexivity.
Defined.

(** ** The handshake, on all paths *)

(** Every run of the handshake ends in one of three ways. *)
Lemma on_load_cases (os : env) (w : world) :
  let w' := snd (frida_loader_on_load os w) in
  ((socket_result os =? -1)%Z = true /\
   new_events w w' = [EvLog "frida_loader_on_load"; EvSocket (socket_result os)] /\
   w_heap w' = w_heap w) \/
  ((socket_result os =? -1)%Z = false /\
   new_events w w' = on_load_prologue os ++ [EvClose (socket_result os)] /\
   w_heap w' = w_heap w) \/
  ((socket_result os =? -1)%Z = false /\
   (connect_result os =? -1)%Z = false /\
   fst (frida_loader_send (getpid os) w) = true /\
   exists a n payload more,
     w_heap w !! a = None /\
     rx_stream (w_rx w) = n :: payload ++ more /\
     length payload = Byte.to_nat n /\
     new_events w w' =
       on_load_prologue os ++
       [EvThreadCreate (Ptr a) (pthread_create_result os);
        EvThreadDetach (pthread_create_result os =? 0)%Z;
        EvClose (socket_result os)] /\
     w_heap w' = <[a := map Some payload]> (w_heap w)).
Proof.
  intros w'. subst w'.
  destruct (socket_result os =? -1)%Z eqn:Hsock.
  { left. rewrite on_load_socket_failed by done.
    split; [done|]. split; [by apply new_events_app|done]. }
  right. destruct (connect_result os =? -1)%Z eqn:Hconn.
  { left. rewrite on_load_connect_failed by done.
    split; [done|]. split; [by apply new_events_app|done]. }
  destruct (send_value_run (w_tx w) (render_decimal (getpid os) ++ [x00]))
    as [[ok sentb] rest] eqn:Hrun.
  destruct (frida_loader_send_run (getpid os) w ok sentb rest Hrun) as (e1 & Hsend).
  destruct ok.
  2: { left. destruct (on_load_send_failed os w sentb rest Hsock Hconn Hrun) as (e' & ->).
       split; [done|]. split; [by apply new_events_app|done]. }
  destruct (rx_stream (w_rx w)) as [|n rest'] eqn:Hs.
  { left. destruct (on_load_not_received os w sentb rest Hsock Hconn Hrun)
      as (rx' & e' & ->); [by left; rewrite Hs|].
    split; [done|]. split; [by apply new_events_app|done]. }
  destruct (decide (Byte.to_nat n <= length rest')) as [Hle|Hgt].
  2: { left. destruct (on_load_not_received os w sentb rest Hsock Hconn Hrun)
         as (rx' & e' & ->).
       { right. exists n, rest'. rewrite Hs. split; [done|lia]. }
       split; [done|]. split; [by apply new_events_app|done]. }
  right.
  destruct (on_load_received os w sentb rest n
              (take (Byte.to_nat n) rest') (drop (Byte.to_nat n) rest')
              Hsock Hconn Hrun)
    as (a & rx' & e' & Ha & -> & _).
  { by rewrite Hs, take_drop. }
  { by rewrite length_take_le. }
  split; [done|]. split; [done|]. split; [by rewrite Hsend|].
  exists a, n, (take (Byte.to_nat n) rest'), (drop (Byte.to_nat n) rest').
  rewrite take_drop, length_take_le by done.
  split; [done|]. split; [done|]. split; [done|].
  split; [by apply new_events_app|done].
Qed.

(** X16.  The handshake makes no call of [close] when [socket] failed;
    and, for a data directory whose socket path fits [sun_path], it
    closes the socket on every path on which it got one, once and as its
    last call. *)
Theorem on_load_closes_socket (os : env) (w : world) :
  let evs := new_events w (snd (frida_loader_on_load os w)) in
  if (socket_result os =? -1)%Z
  then existsb is_close evs = false
  else sun_path_fits os = true ->
       exists pre,
         evs = pre ++ [EvClose (socket_result os)] /\
         existsb is_close pre = false.
Proof.
  intros evs. subst evs.
  destruct (on_load_cases os w)
    as [(Hsock & -> & _)|[(Hsock & -> & _)|(Hsock & _ & _ & a & n & p & m & _ & _ & _ & -> & _)]];
    rewrite Hsock.
  - done.
  - intros _. by exists (on_load_prologue os).
  - intros _.
    exists (on_load_prologue os ++
            [EvThreadCreate (Ptr a) (pthread_create_result os);
             EvThreadDetach (pthread_create_result os =? 0)%Z]).
    split; [by rewrite <- app_assoc|done].
Qed.

(** The socket is closed when the address is cut short. *)
Lemma on_load_closes_socket_witness :
  let os := Env (list_byte_of_string "/tmp/frida") 1234 3 0 0 (Ptr 77) (Ptr 88) in
  let w := World ∅ [RxData x0a [x70; x69]] [] [] ENONE [] in
  exists pre,
    new_events w (snd (frida_loader_on_load os w)) = pre ++ [EvClose 3] /\
    existsb is_close pre = false.
Proof.
  intros os w. exact (on_load_closes_socket os w eq_refl).
Defined.

(** X17.  For a data directory whose socket path fits [sun_path]: the
    handshake calls [pthread_create] only when the process identifier
    has been sent whole and the rendezvous address has been received
    whole, and the pointer it passes is then not null and is no block
    that was in the heap before the handshake. *)
Theorem on_load_thread_needs_address (os : env) (w : world) (p : ptr) (r : Z) :
  sun_path_fits os = true ->
  In (EvThreadCreate p r) (new_events w (snd (frida_loader_on_load os w))) ->
  fst (frida_loader_send (getpid os) w) = true /\
  exists a n payload more,
    p = Ptr a /\
    rx_stream (w_rx w) = n :: payload ++ more /\
    length payload = Byte.to_nat n /\
    w_heap w !! a = None.
Proof.
  intros Hfits.
  destruct (on_load_cases os w)
    as [(_ & -> & _)|[(_ & -> & _)|(_ & _ & Hsend & a & n & pl & m & Ha & Hs & Hlen & -> & _)]];
    intros Hin.
  - simpl in Hin. by destruct Hin as [|[|]].
  - apply in_app_or in Hin as [Hin|Hin]; simpl in Hin;
      by repeat (destruct Hin as [Hin|Hin]; try done).
  - split; [done|]. exists a, n, pl, m.
    apply in_app_or in Hin as [Hin|Hin]; simpl in Hin.
    { by repeat (destruct Hin as [Hin|Hin]; try done). }
    by destruct Hin as [[= <- <-]|[|[|]]].
Qed.

(** The thread created in the complete handshake. *)
Lemma on_load_thread_needs_address_witness :
  let os := Env (list_byte_of_string "/tmp/frida") 1234 3 0 0 (Ptr 77) (Ptr 88) in
  let address := list_byte_of_string "pipe://abc" in
  let w := World ∅ [RxData x0a address; RxData x02 [x67; x6f]] [] [] ENONE [] in
  fst (frida_loader_send (getpid os) w) = true /\
  exists a n payload more,
    Ptr 1 = Ptr a /\
    rx_stream (w_rx w) = n :: payload ++ more /\
    length payload = Byte.to_nat n /\
    w_heap w !! a = None.
Proof.
  intros os address w.
  apply (on_load_thread_needs_address os w (Ptr 1) 0); [reflexivity|].
  vm_compute. tauto.
Defined.



(** ** The bootstrap, on its other paths *)

Lemma frida_loader_run_not_loaded (os : env) (p : ptr) (w : world) :
  is_null (dlopen_result os) = true ->
  let text := frida_data_dir os ++ list_byte_of_string "/frida-agent.dylib" ++ [x00] in
  frida_loader_run os p w =
    (Returned,
     World (w_heap (snd (free p w))) (w_rx w) (w_tx w) (w_wire w) (w_errno w)
       (w_trace w ++ [EvDlopen (take (strlen text) text) (dlopen_result os)])).
Proof.
  intros Hopen text.
  unfold frida_loader_run, frida_loader_run_with, call_agent_main, run_beach, asprintf, alloc, dlopen,
    mbind, M_bind, mret, M_ret, modify, emit, set_heap, load; simpl.
  rewrite Hopen. simpl.
  rewrite lookup_insert_eq. simpl.
  rewrite delete_insert_id by apply fresh_heap.
  rewrite defined_prefix_map, <- !app_assoc. simpl.
  by destruct p.
Qed.

Lemma frida_loader_run_no_symbol (os : env) (p : ptr) (w : world) :
  is_null (dlopen_result os) = false ->
  is_null (dlsym_result os) = true ->
  let text := frida_data_dir os ++ list_byte_of_string "/frida-agent.dylib" ++ [x00] in
  frida_loader_run os p w =
    (Aborted,
     World (<[fresh (dom (w_heap w)) := map Some text]> (w_heap w))
       (w_rx w) (w_tx w) (w_wire w) (w_errno w)
       (w_trace w ++ [EvDlopen (take (strlen text) text) (dlopen_result os);
                      EvDlsym (dlopen_result os) "frida_agent_main" (dlsym_result os);
                      EvAbort])).
Proof.
  intros Hopen Hsym text.
  unfold frida_loader_run, frida_loader_run_with, call_agent_main, run_beach, asprintf, alloc, dlopen, dlsym,
    mbind, M_bind, mret, M_ret, modify, emit, set_heap, load; simpl.
  rewrite Hopen. simpl. rewrite Hsym. simpl.
  rewrite lookup_insert_eq. simpl.
  by rewrite defined_prefix_map, <- !app_assoc.
Qed.

(** X19.  When the module cannot be loaded [frida_loader_run] returns
    without looking up or calling anything: its one call is [dlopen], and
    it frees both the path it built and the rendezvous address. *)
Theorem frida_loader_run_module_missing (os : env) (a : nat) (w : world) :
  is_null (dlopen_result os) = true ->
  let text := frida_data_dir os ++ list_byte_of_string "/frida-agent.dylib" ++ [x00] in
  let r := frida_loader_run os (Ptr a) w in
  fst r = Returned /\
  new_events w (snd r) = [EvDlopen (take (strlen text) text) (dlopen_result os)] /\
  w_heap (snd r) = delete a (w_heap w).
Proof.
  intros Hopen text r. subst r.
  rewrite frida_loader_run_not_loaded by done.
  split; [done|]. split; [by apply new_events_app|done].
Qed.

(** There is no agent in the directory. *)
Lemma frida_loader_run_module_missing_witness :
  let os := Env (list_byte_of_string "/tmp/frida") 1234 3 0 0 NULL (Ptr 88) in
  let w := World {[ 1 := map Some (list_byte_of_string "pipe://abc"); 5 := [Some x2a] ]}
             [] [] [] ENONE [] in
  let r := frida_loader_run os (Ptr 1) w in
  fst r = Returned /\
  new_events w (snd r) =
    [EvDlopen (list_byte_of_string "/tmp/frida/frida-agent.dylib") NULL] /\
  w_heap (snd r) = delete 1 (w_heap w).
Proof.
  intros os w r. apply (frida_loader_run_module_missing os 1 w). reflexivity.
Defined.

(** X20.  When the module has no [frida_agent_main] the assertion of
    [frida_loader_run] fails: the run stops there, the entry point is not
    called, the module is not unloaded, and nothing is freed: the heap is
    the heap of before with the block of the agent path added, so the
    path and the rendezvous address are both still allocated. *)
Theorem frida_loader_run_symbol_missing (os : env) (a : nat) (w : world) :
  is_null (dlopen_result os) = false ->
  is_null (dlsym_result os) = true ->
  let text := frida_data_dir os ++ list_byte_of_string "/frida-agent.dylib" ++ [x00] in
  let path := fresh (dom (w_heap w)) in
  let r := frida_loader_run os (Ptr a) w in
  fst r = Aborted /\
  new_events w (snd r) =
    [EvDlopen (take (strlen text) text) (dlopen_result os);
     EvDlsym (dlopen_result os) "frida_agent_main" (dlsym_result os);
     EvAbort] /\
  w_heap w !! path = None /\
  w_heap (snd r) = <[path := map Some text]> (w_heap w) /\
  w_heap (snd r) !! path = Some (map Some text) /\
  forall b blk, w_heap w !! b = Some blk -> w_heap (snd r) !! b = Some blk.
Proof.
  intros Hopen Hsym text path r. subst r.
  rewrite frida_loader_run_no_symbol by done.
  split; [done|]. split; [by apply new_events_app|].
  cbn [snd w_heap]. fold text path.
  split; [apply fresh_heap|]. split; [done|].
  split; [by rewrite lookup_insert_eq|].
  intros b blk Hb.
  rewrite lookup_insert_ne; [done|].
  intros <-. subst path. by rewrite fresh_heap in Hb.
Qed.

(** The module loads and lacks the symbol. *)
Lemma frida_loader_run_symbol_missing_witness :
  let os := Env (list_byte_of_string "/tmp/frida") 1234 3 0 0 (Ptr 77) NULL in
  let w := World {[ 1 := map Some (list_byte_of_string "pipe://abc") ]}
             [] [] [] ENONE [] in
  let text := list_byte_of_string "/tmp/frida/frida-agent.dylib" ++ [x00] in
  let path := fresh (dom (w_heap w)) in
  let r := frida_loader_run os (Ptr 1) w in
  fst r = Aborted /\
  new_events w (snd r) =
    [EvDlopen (list_byte_of_string "/tmp/frida/frida-agent.dylib") (Ptr 77);
     EvDlsym (Ptr 77) "frida_agent_main" NULL;
     EvAbort] /\
  w_heap w !! path = None /\
  w_heap (snd r) = <[path := map Some text]> (w_heap w) /\
  w_heap (snd r) !! path = Some (map Some text) /\
  forall b blk, w_heap w !! b = Some blk -> w_heap (snd r) !! b = Some blk.
Proof.
  intros os w text path r.
  apply (frida_loader_run_symbol_missing os 1 w); reflexivity.
Defined.

(** X21.  On every path [frida_loader_run] calls the entry point of the
    agent at most once: once, with the pointer it was given, a null
    pointer and zero, when the module loads and the symbol resolves; and
    not at all otherwise. *)
Theorem frida_loader_run_entry_once (os : env) (p : ptr) (w : world) :
  List.filter is_agent_main (new_events w (snd (frida_loader_run os p w))) =
    if is_null (dlopen_result os) || is_null (dlsym_result os)
    then []
    else [EvAgentMain p NULL 0].
Proof.
  destruct (is_null (dlopen_result os)) eqn:Hopen.
  { rewrite frida_loader_run_not_loaded by done.
    by erewrite new_events_app by done. }
  destruct (is_null (dlsym_result os)) eqn:Hsym.
  { rewrite frida_loader_run_no_symbol by done.
    by erewrite new_events_app by done. }
  rewrite frida_loader_run_loaded by done.
  by erewrite new_events_app by done.
Qed.
